(** * Source file discovery ([get_all_source_files.py]): model and properties

    A shallow embedding of the file collector of [cpp_core]: the extension
    normaliser, the tree walker, the two library discoverers, the two
    top-level collectors, the build-flavour dispatcher and the command
    line.

    Modelling choices.
    - Strings are [string]: the UTF-8 bytes of the Python string.
      [str.lower] is an interface ([Lowercase]) in the normaliser, whose
      claim is proved for every lower-casing function with the stated
      properties; the walker and the examples work with ASCII names, where
      it is [Str.lower].
    - A [pathlib] path is the list of its [parts]; an absolute path has the
      root ["/"], or ["//"], as its first part, as [PurePosixPath.parts]
      gives it.
    - The file system is a finite tree of directories, regular files and
      symbolic links, with an absolute working directory.  A symbolic link
      is a leaf that records the canonical path [Path.resolve] gives for
      it.  Directory entries carry file names (not empty, no slash, neither
      ["."] nor [".."]).
    - The model describes the code on file trees in which no symbolic link
      points to a directory ([no_dir_links]) and on paths with the root
      ["/"]: there a path is looked up through directories only, [is_dir]
      of a link is false, [os.walk] lists every link among the files, and
      [Path.resolve] makes the path absolute against the working directory
      and collapses its [".."] segments.  Statements about what is found
      below a directory are to be read on such trees.
    - Python sets are [gset]s; [sorted] is a merge sort for the byte-wise
      lexicographic order on strings. *)

From Stdlib Require Import Ascii String NArith.
From stdpp Require Import base gmap sets list strings sorting.

Open Scope string_scope.
Open Scope list_scope.
Open Scope stdpp_scope.

(** ** Strings *)

Module Str.

(** [c.lower()] for one ASCII character. *)
Definition ascii_lower (c : ascii) : ascii :=
  let n := N_of_ascii c in
  if ((65 <=? n) && (n <=? 90))%N then ascii_of_N (n + 32) else c.

Definition is_upper (c : ascii) : bool :=
  let n := N_of_ascii c in ((65 <=? n) && (n <=? 90))%N.

(** [s.lower()] for ASCII text: [A-Z] go to [a-z], every other character
    stays. *)
Fixpoint lower (s : string) : string :=
  match s with
  | EmptyString => EmptyString
  | String c s' => String (ascii_lower c) (lower s')
  end.

(** [s.startswith(p)] *)
Definition startswith (s p : string) : bool := String.prefix p s.

(** [s.endswith(p)] *)
Definition endswith (s p : string) : bool :=
  String.prefix (String.rev p) (String.rev s).

(** [s.lstrip(".")] *)
Fixpoint lstrip_dots (s : string) : string :=
  match s with
  | String "." s' => lstrip_dots s'
  | _ => s
  end.

(** [s.split(sep)] for a one-character separator. *)
Fixpoint split (sep : ascii) (s : string) : list string :=
  match s with
  | EmptyString => [EmptyString]
  | String c s' =>
      if decide (c = sep) then EmptyString :: split sep s'
      else match split sep s' with
           | [] => [String c EmptyString]
           | w :: ws => String c w :: ws
           end
  end.

(** [sep.join(l)] *)
Fixpoint join (sep : string) (l : list string) : string :=
  match l with
  | [] => ""
  | [x] => x
  | x :: l' => x +:+ sep +:+ join sep l'
  end.

(** [s.rfind(".")], as the index of the last dot paired with the part of
    [s] that starts there. *)
Fixpoint rfind_dot (i : nat) (s : string) : option (nat * string) :=
  match s with
  | EmptyString => None
  | String c s' =>
      match rfind_dot (S i) s' with
      | Some r => Some r
      | None => if decide (c = "."%char) then Some (i, s) else None
      end
  end.

(** No character is an upper-case ASCII letter. *)
Fixpoint no_upper (s : string) : bool :=
  match s with
  | EmptyString => true
  | String c s' => negb (is_upper c) && no_upper s'
  end.

(** Every character is an ASCII character. *)
Fixpoint is_ascii (s : string) : bool :=
  match s with
  | EmptyString => true
  | String c s' => (N_of_ascii c <? 128)%N && is_ascii s'
  end.

(** No character is a slash. *)
Fixpoint no_slash (s : string) : bool :=
  match s with
  | EmptyString => true
  | String c s' => negb (bool_decide (c = "/"%char)) && no_slash s'
  end.

End Str.

(** ** Paths ([pathlib.PurePosixPath]) *)

Definition Path := list string.

Module PurePath.

(** The root of a path string: ["/"], or ["//"] for exactly two leading
    slashes, or none. *)
Definition root_of (s : string) : list string :=
  match s with
  | String "/" (String "/" (String "/" _)) => ["/"]
  | String "/" (String "/" _) => ["//"]
  | String "/" _ => ["/"]
  | _ => []
  end.

(** [Path(s).parts] *)
Definition of_string (s : string) : Path :=
  root_of s ++ filter (λ x, x ≠ "" ∧ x ≠ ".") (Str.split "/" s).

Definition is_root (x : string) : bool :=
  bool_decide (x = "/") || bool_decide (x = "//").

(** [p.is_absolute()] *)
Definition is_absolute (p : Path) : bool :=
  match p with
  | r :: _ => is_root r
  | [] => false
  end.

(** [str(p)] *)
Definition to_string (p : Path) : string :=
  match p with
  | [] => "."
  | r :: ps => if is_root r then r +:+ Str.join "/" ps else Str.join "/" p
  end.

(** [p.name] *)
Definition name (p : Path) : string :=
  match p with
  | [] => ""
  | [r] => if is_root r then "" else r
  | _ => List.last p ""
  end.

(** [p.suffix]: the part of the name from its last dot on, when that dot
    is neither the first nor the last character of the name. *)
Definition suffix (p : Path) : string :=
  let nm := name p in
  match Str.rfind_dot 0 nm with
  | Some (i, ext) =>
      if bool_decide (0 < i) && bool_decide (i < String.length nm - 1)
      then ext else ""
  | None => ""
  end.

(** [p / s] *)
Definition joinpath (p : Path) (s : string) : Path :=
  let q := of_string s in
  if is_absolute q then q else p ++ q.

(** [p.is_relative_to(other)] *)
Definition is_relative_to (p other : Path) : bool :=
  bool_decide (other `prefix_of` p).


End PurePath.

(** [os.path.isabs(s)] *)
Definition os_path_isabs (s : string) : bool := Str.startswith s "/".

(** ** File system *)

(** A directory lists its entries in the order [os.scandir] yields them.
    A symbolic link carries the canonical path it resolves to. *)
#[warnings="-register-all"]
Inductive node : Type :=
  | File
  | Symlink (target : Path)
  | Dir (entries : list (string * node)).

(** A file name is not empty, is neither ["."] nor [".."], and holds no
    slash. *)
Definition valid_name (s : string) : bool :=
  negb (bool_decide (s = "")) && negb (bool_decide (s = "."))
  && negb (bool_decide (s = "..")) && Str.no_slash s.

(** Every entry of every directory of the tree has a file name. *)
Fixpoint names_ok (n : node) : bool :=
  match n with
  | Dir es => forallb (λ e, valid_name e.1 && names_ok e.2) es
  | _ => true
  end.

(** The entries of a directory have file names, and the working directory
    is an absolute path, as [os.getcwd()] always returns one. *)
Record filesystem := {
  fs_root : node;   (* the tree below ["/"] *)
  fs_cwd : Path;    (* [os.getcwd()] *)
  fs_names_ok : names_ok fs_root = true;
  fs_cwd_abs : PurePath.is_absolute fs_cwd = true;
}.

Module FS.

(** The entry called [nm] of a directory listing. *)
Fixpoint entry (es : list (string * node)) (nm : string) : option node :=
  match es with
  | [] => None
  | (k, n) :: es' => if decide (k = nm) then Some n else entry es' nm
  end.

(** [p.absolute()] *)
Definition absolute (fs : filesystem) (p : Path) : Path :=
  if PurePath.is_absolute p then p else fs_cwd fs ++ p.

(** Path lookup as the kernel does it, without following a final link:
    segment by segment, where [".."] goes back to the directory above
    ([anc] holds the directories passed on the way down) and stays at the
    root when there is none. *)
Fixpoint lookup_from (anc : list node) (cur : node) (segs : list string)
  : option node :=
  match segs with
  | [] => Some cur
  | s :: segs' =>
      match cur with
      | Dir es =>
          if decide (s = "..") then
            match anc with
            | [] => lookup_from [] cur segs'
            | a :: anc' => lookup_from anc' a segs'
            end
          else
            match entry es s with
            | Some n => lookup_from (cur :: anc) n segs'
            | None => None
            end
      | _ => None
      end
  end.

Definition lookup (fs : filesystem) (p : Path) : option node :=
  match absolute fs p with
  | r :: segs =>
      if PurePath.is_root r then lookup_from [] (fs_root fs) segs else None
  | [] => None
  end.

(** [p.exists()]; a link exists when its target does. *)
Definition exists_ (fs : filesystem) (p : Path) : bool :=
  match lookup fs p with
  | Some (Symlink t) =>
      match lookup fs t with Some _ => true | None => false end
  | Some _ => true
  | None => false
  end.

(** [p.is_dir()]; no link points to a directory in the trees described. *)
Definition is_dir (fs : filesystem) (p : Path) : bool :=
  match lookup fs p with Some (Dir _) => true | _ => false end.

(** [p.iterdir()]: the children of a directory with their nodes. *)
Definition iterdir (fs : filesystem) (p : Path) : list (Path * node) :=
  match lookup fs p with
  | Some (Dir es) => map (λ e, (p ++ [e.1], e.2)) es
  | _ => []
  end.

(** One step of the collapse of [".."] segments; the root is kept. *)
Definition norm_step (acc : Path) (seg : string) : Path :=
  if decide (seg = "..") then
    match acc with
    | [r] => if PurePath.is_root r then acc else []
    | _ => removelast acc
    end
  else acc ++ [seg].

Definition normalise (p : Path) : Path := fold_left norm_step p [].

(** [p.resolve()] for a path that is not a link and has no link to a
    directory on its way; the root is kept as written. *)
Definition resolve (fs : filesystem) (p : Path) : Path :=
  normalise (absolute fs p).

(** [p.resolve()] for the entry [n] found at [p] in a directory listing. *)
Definition resolve_entry (fs : filesystem) (p : Path) (n : node) : Path :=
  match n with
  | Symlink target => target
  | _ => resolve fs p
  end.

End FS.

(** ** Constants *)

Definition DEFAULT_EXCLUDE_DIRS : gset string :=
  {[ ".pio"; ".git"; "build"; ".vscode"; ".idea" ]}.

Definition DEFAULT_SOURCE_EXTENSIONS : list string :=
  [".h"; ".hpp"; ".cpp"; ".cc"; ".cxx"].

(** Truth value of an [Optional[List[str]]]: [None] and [[]] are false. *)
Definition truthy {A} (o : option (list A)) : bool :=
  match o with
  | Some (_ :: _) => true
  | _ => false
  end.

(** [sorted(l)] for a list of strings. *)
Definition sorted (l : list string) : list string := merge_sort String.le l.

(** ** Extension normaliser *)

(** [str.lower].  Python lower-cases by the Unicode tables.  The normaliser
    takes the function as an interface, with a string read as the UTF-8
    bytes of the Python string; what is known of it is stated where it is
    used. *)
Class Lowercase := str_lower : string → string.

(** On ASCII text [str.lower] is [Str.lower]; the walker and the examples
    work with it. *)
#[global] Instance ascii_lowercase : Lowercase := Str.lower.

Definition normalize_one `{Lowercase} (e : string) : string :=
  let e := str_lower e in
  if negb (Str.startswith e ".") then "." +:+ e else e.

Definition _normalize_extensions `{Lowercase}
    (extensions : option (list string)) : gset string :=
  if negb (truthy extensions) then
    list_to_set (map str_lower DEFAULT_SOURCE_EXTENSIONS)
  else
    foldl (λ out e, out ∪ {[ normalize_one e ]}) ∅ (default [] extensions).

(** ** Tree walker *)

Definition _path_has_excluded_part (path : Path) (exclude_dirs : gset string)
  : bool :=
  existsb (λ part, bool_decide (part ∈ exclude_dirs)) path.

Definition _path_under_any (fs : filesystem) (path : Path)
    (exclude_paths : gset Path) : bool :=
  let resolved := FS.resolve fs path in
  existsb (λ ex, PurePath.is_relative_to resolved ex) (elements exclude_paths).

(** An entry of [files] whose suffix is in [file_extensions].  [os.walk]
    puts into [files] every entry that is not a directory; a link counts
    as what it points to, which in the trees described is no directory. *)
Definition passes_filter (file_extensions : gset string) (root_path_obj : Path)
    (e : string * node) : bool :=
  match e.2 with
  | Dir _ => false
  | _ =>
      bool_decide
        (Str.lower (PurePath.suffix (root_path_obj ++ [e.1])) ∈ file_extensions)
  end.

(** The entries of one listing that the inner loop appends to [result]. *)
Definition collect_files (file_extensions : gset string) (root_path_obj : Path)
    (es : list (string * node)) : list (string * node) :=
  filter (λ e, passes_filter file_extensions root_path_obj e) es.

(** [os.walk(start)] run with the body of the loop of [_walk_for_files]:
    every directory the generator yields, with the entries collected in it.
    A pruned directory is yielded, collects nothing and ([dirs.clear()]) is
    not descended into; otherwise the walk continues in the sub-directories
    whose name is outside [exclude_dirs]. *)
Fixpoint walk_body (fs : filesystem) (file_extensions exclude_dirs : gset string)
    (combined_exclude_paths : gset Path) (root_path_obj : Path) (n : node)
    {struct n} : list (Path * list (string * node)) :=
  match n with
  | Dir es =>
      if _path_has_excluded_part root_path_obj exclude_dirs then
        [(root_path_obj, [])]
      else if bool_decide (combined_exclude_paths ≠ ∅)
              && _path_under_any fs root_path_obj combined_exclude_paths then
        [(root_path_obj, [])]
      else
        (root_path_obj, collect_files file_extensions root_path_obj es)
        :: flat_map (λ e,
             match e.2 with
             | Dir _ =>
                 if bool_decide (e.1 ∈ exclude_dirs) then []
                 else walk_body fs file_extensions exclude_dirs
                        combined_exclude_paths (root_path_obj ++ [e.1]) e.2
             | _ => []
             end) es
  | _ => []
  end.

Definition os_walk (fs : filesystem) (file_extensions exclude_dirs : gset string)
    (combined_exclude_paths : gset Path) (start : Path)
  : list (Path * list (string * node)) :=
  match FS.lookup fs start with
  | Some n =>
      walk_body fs file_extensions exclude_dirs combined_exclude_paths start n
  | None => []
  end.

(** The sub-directory an entry of [include_folders] stands for. *)
Definition include_sub (root_path : Path) (folder : string) : Path :=
  if negb (os_path_isabs folder) then PurePath.joinpath root_path folder
  else PurePath.of_string folder.

Definition roots_to_walk (fs : filesystem) (root_path : Path)
    (include_folders : option (list string)) : list Path :=
  if truthy include_folders then
    let subs :=
      filter (λ sub, FS.exists_ fs sub && FS.is_dir fs sub)
             (map (include_sub root_path) (default [] include_folders)) in
    match subs with
    | [] => [root_path]
    | _ => subs
    end
  else [root_path].

(** [combined_exclude_paths] *)
Definition combined (fs : filesystem) (exclude_paths : option (gset Path))
  : gset Path :=
  match exclude_paths with
  | Some ps => if decide (ps = ∅) then ∅ else set_map (FS.resolve fs) ps
  | None => ∅
  end.

(** The directories visited by a call of [_walk_for_files], in order, each
    with the entries collected in it. *)
Definition walk_trace (fs : filesystem) (root_path : Path)
    (file_extensions : gset string) (include_folders : option (list string))
    (exclude_dirs : gset string) (exclude_paths : option (gset Path))
  : list (Path * list (string * node)) :=
  let root_path := FS.resolve fs root_path in
  if negb (FS.exists_ fs root_path) || negb (FS.is_dir fs root_path) then []
  else
    flat_map (os_walk fs file_extensions exclude_dirs (combined fs exclude_paths))
             (roots_to_walk fs root_path include_folders).

(** [p.resolve()] for every collected entry, in the order of collection. *)
Definition resolved_paths (fs : filesystem)
    (trace : list (Path * list (string * node))) : list Path :=
  flat_map (λ v, map (λ e, FS.resolve_entry fs (v.1 ++ [e.1]) e.2) v.2) trace.

Definition walk_paths (fs : filesystem) (root_path : Path)
    (file_extensions : gset string) (include_folders : option (list string))
    (exclude_dirs : gset string) (exclude_paths : option (gset Path))
  : list Path :=
  resolved_paths fs
    (walk_trace fs root_path file_extensions include_folders exclude_dirs
       exclude_paths).

Definition _walk_for_files (fs : filesystem) (root_path : Path)
    (file_extensions : gset string) (include_folders : option (list string))
    (exclude_dirs : gset string) (exclude_paths : option (gset Path))
  : list string :=
  sorted (map PurePath.to_string
    (walk_paths fs root_path file_extensions include_folders exclude_dirs
       exclude_paths)).

(** ** Library discovery *)

(** [if str(lib_root) not in seen: seen.add(...); libraries.append(lib_root)] *)
Definition add_library (st : list Path * gset string) (lib_root : Path)
  : list Path * gset string :=
  let key := PurePath.to_string lib_root in
  if bool_decide (key ∈ st.2) then st
  else (st.1 ++ [lib_root], st.2 ∪ {[ key ]}).

Definition has_subdir (fs : filesystem) (lib_dir : Path) (nm : string) : bool :=
  FS.exists_ fs (lib_dir ++ [nm]) && FS.is_dir fs (lib_dir ++ [nm]).

Definition _discover_libraries_desktop (fs : filesystem) (project_dir : string)
  : list Path :=
  let project_path := FS.resolve fs (PurePath.of_string project_dir) in
  let build_deps := project_path ++ ["build"; "_deps"] in
  if negb (FS.exists_ fs build_deps) || negb (FS.is_dir fs build_deps) then []
  else
    (foldl (λ st child,
       let lib_dir : Path := child.1 in
       if negb (FS.is_dir fs lib_dir)
          || Str.startswith (PurePath.name lib_dir) "." then st
       else if Str.endswith (PurePath.name lib_dir) "-src" then
         add_library st (FS.resolve fs lib_dir)
       else if has_subdir fs lib_dir "include" then
         add_library st (FS.resolve fs lib_dir)
       else if has_subdir fs lib_dir "src" then
         add_library st (FS.resolve fs lib_dir)
       else st) ([], ∅) (FS.iterdir fs build_deps)).1.

Definition _discover_libraries_arduino (fs : filesystem) (project_dir : string)
  : list Path :=
  let project_path := FS.resolve fs (PurePath.of_string project_dir) in
  let pio_libdeps := project_path ++ [".pio"; "libdeps"] in
  if negb (FS.exists_ fs pio_libdeps) || negb (FS.is_dir fs pio_libdeps) then []
  else
    (foldl (λ st env,
       let env_dir : Path := env.1 in
       if negb (FS.is_dir fs env_dir) then st
       else
         foldl (λ st child,
           let lib_dir : Path := child.1 in
           if negb (FS.is_dir fs lib_dir) then st
           else add_library st (FS.resolve fs lib_dir))
           st (FS.iterdir fs env_dir))
       ([], ∅) (FS.iterdir fs pio_libdeps)).1.

(** ** Top-level collectors *)

(** [d.lstrip(".") if d.startswith(".") else d] *)
Definition strip_name (d : string) : string :=
  if Str.startswith d "." then Str.lstrip_dots d else d.

(** [Path(f).parts[0] if Path(f).parts else f] *)
Definition first_part (f : string) : string :=
  match PurePath.of_string f with
  | part :: _ => part
  | [] => f
  end.

Definition exclude_dir_set (exclude_folders exclude_dirs : option (list string))
  : gset string :=
  let s0 := DEFAULT_EXCLUDE_DIRS in
  let s1 := if truthy exclude_dirs
            then s0 ∪ list_to_set (map strip_name (default [] exclude_dirs))
            else s0 in
  if truthy exclude_folders
  then s1 ∪ list_to_set (map first_part (default [] exclude_folders))
  else s1.

Definition exclude_path_of (fs : filesystem) (project_path : Path) (f : string)
  : Path :=
  if os_path_isabs f then FS.resolve fs (PurePath.of_string f)
  else FS.resolve fs (PurePath.joinpath project_path f).

Definition exclude_path_set (fs : filesystem) (project_path : Path)
    (exclude_folders : option (list string)) : gset Path :=
  if truthy exclude_folders
  then list_to_set (map (exclude_path_of fs project_path)
                        (default [] exclude_folders))
  else ∅.

(** The part the two collectors share: walk the project, then every
    discovered library, into one set, and sort it. *)
Definition collect (fs : filesystem) (libraries : list Path)
    (project_dir : string)
    (file_extensions include_folders exclude_folders exclude_dirs
       : option (list string))
    (include_libraries : bool) : list string :=
  let project_path := FS.resolve fs (PurePath.of_string project_dir) in
  let ext_set := _normalize_extensions file_extensions in
  let excl := exclude_dir_set exclude_folders exclude_dirs in
  let exclude_paths := exclude_path_set fs project_path exclude_folders in
  let project_files :=
    _walk_for_files fs project_path ext_set include_folders excl
      (if decide (exclude_paths = ∅) then None else Some exclude_paths) in
  let all_paths : gset string := list_to_set project_files in
  let all_paths :=
    if include_libraries then
      foldl (λ (acc : gset string) lib_root,
               acc ∪ list_to_set
                 (_walk_for_files fs lib_root ext_set include_folders excl None))
            all_paths libraries
    else all_paths in
  sorted (elements all_paths).

Definition get_all_files_desktop (fs : filesystem) (project_dir : string)
    (file_extensions include_folders exclude_folders exclude_dirs
       : option (list string))
    (include_libraries : bool) : list string :=
  collect fs (_discover_libraries_desktop fs project_dir) project_dir
    file_extensions include_folders exclude_folders exclude_dirs
    include_libraries.

Definition get_all_files_arduino (fs : filesystem) (project_dir : string)
    (file_extensions include_folders exclude_folders exclude_dirs
       : option (list string))
    (include_libraries : bool) : list string :=
  collect fs (_discover_libraries_arduino fs project_dir) project_dir
    file_extensions include_folders exclude_folders exclude_dirs
    include_libraries.

(** ** Dispatcher *)

(** [os.environ] *)
Definition environ := gmap string string.

(** Truth value of an [Optional[str]]: [None] and [""] are false. *)
Definition str_truthy (o : option string) : bool :=
  match o with
  | Some s => negb (bool_decide (s = ""))
  | None => false
  end.

Definition _is_cmake_build (fs : filesystem) (env : environ)
    (project_dir : option string) : bool :=
  if str_truthy (env !! "CMAKE_PROJECT_DIR") then true
  else if str_truthy (env !! "PROJECT_DIR") then false
  else if str_truthy project_dir then
    let proj := FS.resolve fs (PurePath.of_string (default "" project_dir)) in
    if FS.exists_ fs (proj ++ ["build"; "_deps"]) then true
    else if FS.exists_ fs (proj ++ [".pio"; "libdeps"]) then false
    else true
  else true.

(** [a or b] on optional strings. *)
Definition str_or (a b : option string) : option string :=
  if str_truthy a then a else b.

(** The project directory [get_all_files_std] settles on. *)
Definition std_project_dir (fs : filesystem) (env : environ)
    (project_dir : option string) : string :=
  let pd := if negb (str_truthy project_dir)
            then str_or (env !! "CMAKE_PROJECT_DIR") (env !! "PROJECT_DIR")
            else project_dir in
  if negb (str_truthy pd) then PurePath.to_string (fs_cwd fs)
  else default "" pd.

Definition get_all_files_std (fs : filesystem) (env : environ)
    (project_dir : option string)
    (file_extensions include_folders exclude_folders exclude_dirs
       : option (list string))
    (include_libraries : bool) : list string :=
  let project_dir := std_project_dir fs env project_dir in
  if _is_cmake_build fs env (Some project_dir) then
    get_all_files_desktop fs project_dir file_extensions include_folders
      exclude_folders exclude_dirs include_libraries
  else
    get_all_files_arduino fs project_dir file_extensions include_folders
      exclude_folders exclude_dirs include_libraries.

(** ** Command line *)

(** [project_dir or os.getcwd()] *)
Definition or_cwd (fs : filesystem) (project_dir : option string) : string :=
  if str_truthy project_dir then default "" project_dir
  else PurePath.to_string (fs_cwd fs).

(** The script run as a program: the lines it prints for [sys.argv]. *)
Definition main (fs : filesystem) (env : environ) (argv : list string)
  : list string :=
  let project_dir := if bool_decide (1 < length argv) then argv !! 1 else None in
  let mode :=
    Str.lower (if bool_decide (2 < length argv) then default "std" (argv !! 2)
               else "std") in
  if bool_decide (mode ∈ ["arduino"; "pio"; "platformio"]) then
    get_all_files_arduino fs (or_cwd fs project_dir) None None None None true
  else if bool_decide (mode ∈ ["desktop"; "cmake"]) then
    get_all_files_desktop fs (or_cwd fs project_dir) None None None None true
  else
    get_all_files_std fs env project_dir None None None None true.

(** ** Notions used in the statements *)

(** Induction on file trees, with the hypothesis for every entry of a
    directory. *)
Definition node_tree_ind (P : node → Prop) (HF : P File)
    (HL : ∀ t, P (Symlink t))
    (HD : ∀ es, Forall (λ e, P e.2) es → P (Dir es)) : ∀ n, P n :=
  fix go n :=
    match n with
    | File => HF
    | Symlink t => HL t
    | Dir es =>
        HD es ((fix go_list (l : list (string * node)) : Forall (λ e, P e.2) l :=
                  match l with
                  | [] => @List.Forall_nil _ (λ e, P e.2)
                  | e :: l' =>
                      @List.Forall_cons _ (λ e, P e.2) e l' (go e.2) (go_list l')
                  end) es)
    end.

(** What the loop body has checked when it collects the entry [e] in the
    directory [d]: the directory was not pruned and the name of the entry
    passed the extension filter. *)
Definition collected_in (fs : filesystem) (file_extensions exclude_dirs : gset string)
    (cex : gset Path) (d : Path) (e : string * node) : Prop :=
  _path_has_excluded_part d exclude_dirs = false ∧
  (cex ≠ ∅ → _path_under_any fs d cex = false) ∧
  passes_filter file_extensions d e = true.

(** The named sub-directories of [r] that exist. *)
Definition named_subs (fs : filesystem) (r : Path) (folders : list string)
  : list Path :=
  filter (λ sub, FS.is_dir fs sub = true) (map (include_sub r) folders).

(** Every resolved path a collector puts into [all_paths]: those of the
    project walk, then those of the library walks. *)
Definition collected_paths (fs : filesystem) (libraries : list Path)
    (project_dir : string)
    (file_extensions include_folders exclude_folders exclude_dirs
       : option (list string))
    (include_libraries : bool) : list Path :=
  let project_path := FS.resolve fs (PurePath.of_string project_dir) in
  let ext_set := _normalize_extensions file_extensions in
  let excl := exclude_dir_set exclude_folders exclude_dirs in
  let exclude_paths := exclude_path_set fs project_path exclude_folders in
  walk_paths fs project_path ext_set include_folders excl
    (if decide (exclude_paths = ∅) then None else Some exclude_paths)
  ++ (if include_libraries then
        flat_map (λ lib_root,
          walk_paths fs lib_root ext_set include_folders excl None) libraries
      else []).




(** The effective exclude-name set as the specification words it: the
    defaults, the caller's names as given, and the first segment of every
    exclude folder. *)
Definition exclude_names_as_specified
    (exclude_folders exclude_dirs : option (list string)) : gset string :=
  DEFAULT_EXCLUDE_DIRS
  ∪ list_to_set (default [] exclude_dirs)
  ∪ list_to_set (map first_part (default [] exclude_folders)).


(** A root below an excluded name, as the claim words it: whenever the
    resolved root has a segment in the exclude-name set, the call returns
    nothing. *)
Definition excluded_root_as_specified (fs : filesystem) (root_path : Path)
    (file_extensions : gset string) (include_folders : option (list string))
    (exclude_dirs : gset string) (exclude_paths : option (gset Path)) : Prop :=
  _path_has_excluded_part (FS.resolve fs root_path) exclude_dirs = true →
  _walk_for_files fs root_path file_extensions include_folders exclude_dirs
    exclude_paths = [].

(** Every symbolic link below [n] points to something that is not a
    directory: a file, another place that is no directory, or nothing. *)
Fixpoint links_to_files (look : Path → option node) (n : node) : bool :=
  match n with
  | File => true
  | Symlink target =>
      match look target with
      | Some (Dir _) => false
      | _ => true
      end
  | Dir es => forallb (λ e, links_to_files look e.2) es
  end.

(** The file trees the model describes as the code sees them: no symbolic
    link points to a directory.  In such a tree a path is looked up, and
    resolved, through directories only, [os.walk] lists every link among
    the files, and [is_dir] of a link is false. *)
Definition no_dir_links (fs : filesystem) : bool :=
  links_to_files (FS.lookup fs) (fs_root fs).

(** The node reached from [n] by going down through the entries named
    [ns], as a lookup without [".."] does. *)
Fixpoint descend (n : node) (ns : list string) : option node :=
  match ns with
  | [] => Some n
  | nm :: ns' =>
      match n with
      | Dir es =>
          match FS.entry es nm with
          | Some c => descend c ns'
          | None => None
          end
      | _ => None
      end
  end.

(** The test of the loop of [_discover_libraries_desktop]: a directory
    that is not hidden and is named [*-src] or holds [include] or [src]. *)
Definition desktop_library (fs : filesystem) (lib_dir : Path) : bool :=
  FS.is_dir fs lib_dir
  && negb (Str.startswith (PurePath.name lib_dir) ".")
  && (Str.endswith (PurePath.name lib_dir) "-src"
      || has_subdir fs lib_dir "include" || has_subdir fs lib_dir "src").

(** The directories two levels below [.pio/libdeps] that the loops of
    [_discover_libraries_arduino] reach. *)
Definition arduino_candidates (fs : filesystem) (pio_libdeps : Path)
  : list (Path * node) :=
  flat_map (λ env, if FS.is_dir fs env.1 then FS.iterdir fs env.1 else [])
           (FS.iterdir fs pio_libdeps).

(** ** Example trees *)

(** A project with sources, build output, a fetched desktop library and a
    fetched embedded library; next to it, two directories outside the
    project. *)
Definition project_tree : node :=
  Dir [("proj", Dir [
         ("src", Dir [("main.cpp", File)]);
         ("build", Dir [
            ("obj", Dir [("main.o", File)]);
            ("_deps", Dir [
               ("zlib-src", Dir [("include", Dir [("zlib.h", File)])])])]);
         (".git", Dir [("config", File)]);
         (".pio", Dir [
            ("libdeps", Dir [
               ("uno", Dir [("Wire", Dir [("src", Dir [("Wire.h", File)])])])])]);
         ("include", Dir [("foo.h", File)])]);
       ("other", Dir [("a.h", File)]);
       ("build", Dir [("x.h", File)])].

Definition project_fs : filesystem :=
  {| fs_root := project_tree; fs_cwd := ["/"; "proj"];
     fs_names_ok := eq_refl; fs_cwd_abs := eq_refl |}.

(** A project whose [src] holds two symbolic links: one to a text file
    outside the project, one to a header below [build]. *)
Definition linked_tree : node :=
  Dir [("proj", Dir [
         ("src", Dir [
            ("main.cpp", File);
            ("notes.h", Symlink ["/"; "data"; "notes.txt"]);
            ("gen.h", Symlink ["/"; "proj"; "build"; "gen"; "x.h"])]);
         ("build", Dir [("gen", Dir [("x.h", File)])])]);
       ("data", Dir [("notes.txt", File)])].

Definition linked_fs : filesystem :=
  {| fs_root := linked_tree; fs_cwd := ["/"; "proj"];
     fs_names_ok := eq_refl; fs_cwd_abs := eq_refl |}.

(** A project whose [gen] is a symbolic link to its directory [src]: a
    tree outside what the model describes. *)
Definition dir_link_tree : node :=
  Dir [("proj", Dir [
         ("gen", Symlink ["/"; "proj"; "src"]);
         ("src", Dir [("a.h", File)])])].

Definition dir_link_fs : filesystem :=
  {| fs_root := dir_link_tree; fs_cwd := ["/"; "proj"];
     fs_names_ok := eq_refl; fs_cwd_abs := eq_refl |}.

(** A project with a hidden directory [.cache] beside a directory
    [cache]. *)
Definition cache_tree : node :=
  Dir [("proj", Dir [
         ("src", Dir [("main.cpp", File)]);
         (".cache", Dir [("gen.h", File)]);
         ("cache", Dir [("keep.h", File)])])].

Definition cache_fs : filesystem :=
  {| fs_root := cache_tree; fs_cwd := ["/"; "proj"];
     fs_names_ok := eq_refl; fs_cwd_abs := eq_refl |}.

(** * Properties *)

(** ** The model on small inputs *)

Example lower_mixed : Str.lower "Foo.HPP" = "foo.hpp".
Proof. reflexivity. Qed.

Example links_of_examples :
  no_dir_links project_fs = true ∧ no_dir_links linked_fs = true ∧
  no_dir_links dir_link_fs = false.
Proof. by vm_compute. Qed.

Example endswith_src :
  Str.endswith "zlib-src" "-src" = true ∧ Str.endswith "src" "-src" = false.
Proof. split; reflexivity. Qed.

Example lstrip_dots_leading : Str.lstrip_dots "..x.y" = "x.y".
Proof. reflexivity. Qed.

Example split_slashes : Str.split "/" "a//b" = ["a"; ""; "b"].
Proof. reflexivity. Qed.

Example of_string_absolute :
  PurePath.of_string "/a//b/./c.h" = ["/"; "a"; "b"; "c.h"].
Proof. reflexivity. Qed.

Example of_string_relative : PurePath.of_string "build/_deps" = ["build"; "_deps"].
Proof. reflexivity. Qed.

Example of_string_dot : PurePath.of_string "." = [] ∧ PurePath.of_string "" = [].
Proof. split; reflexivity. Qed.

Example to_string_absolute : PurePath.to_string ["/"; "a"; "c.h"] = "/a/c.h".
Proof. reflexivity. Qed.

Example suffix_last_dot : PurePath.suffix ["/"; "a"; "Foo.tar.GZ"] = ".GZ".
Proof. reflexivity. Qed.

Example suffix_hidden_file : PurePath.suffix ["/"; "a"; ".bashrc"] = "".
Proof. reflexivity. Qed.

Example suffix_trailing_dot : PurePath.suffix ["/"; "a"; "foo."] = "".
Proof. reflexivity. Qed.

Example first_part_absolute : first_part "/opt/vendor" = "/".
Proof. reflexivity. Qed.

Example resolve_relative :
  FS.resolve project_fs ["src"; ".."; "include"] = ["/"; "proj"; "include"].
Proof. reflexivity. Qed.

(** [resolve] collapses [".."] by name; the kernel needs the directory
    before it to exist. *)
Example lookup_through_missing :
  FS.resolve project_fs ["nosuch"; ".."; "src"] = ["/"; "proj"; "src"] ∧
  FS.is_dir project_fs ["nosuch"; ".."; "src"] = false ∧
  FS.is_dir project_fs ["include"; ".."; "src"] = true.
Proof. repeat split; reflexivity. Qed.

Example normalize_mixed :
  _normalize_extensions (Some ["H"; ".Cpp"; "h"]) = {[ ".h"; ".cpp" ]}.
Proof.
  apply set_eq. intros x. unfold _normalize_extensions. cbn.
  rewrite !elem_of_union, !elem_of_singleton.
  split; intros H; repeat destruct H as [H|H]; subst; auto.
  by apply not_elem_of_empty in H.
Qed.

(** The scenario of the specification: sources, build output and version
    control metadata. *)
Example project_walk :
  _walk_for_files project_fs ["/"; "proj"] (_normalize_extensions None) None
    DEFAULT_EXCLUDE_DIRS None
  = ["/proj/include/foo.h"; "/proj/src/main.cpp"].
Proof. vm_compute. reflexivity. Qed.

Example exclude_path_prunes :
  get_all_files_desktop project_fs "/proj" None None (Some ["src"]) None true
  = ["/proj/include/foo.h"].
Proof. vm_compute. reflexivity. Qed.

Example embedded_signal_only :
  _is_cmake_build project_fs {[ "PROJECT_DIR" := "/proj" ]} (Some "/proj") = false.
Proof. vm_compute. reflexivity. Qed.

Example both_signals :
  _is_cmake_build project_fs
    (<[ "CMAKE_PROJECT_DIR" := "/proj" ]> {[ "PROJECT_DIR" := "/proj" ]})
    (Some "/proj") = true.
Proof. vm_compute. reflexivity. Qed.

(** ** Strings and the extension normaliser *)

Section normaliser.

Lemma ascii_lower_not_upper c : Str.is_upper (Str.ascii_lower c) = false.
Proof. by destruct c as [[] [] [] [] [] [] [] []]. Qed.

Lemma lower_no_upper s : Str.no_upper (Str.lower s) = true.
Proof.
  induction s as [|c s IH]; [done|].
  cbn [Str.lower Str.no_upper].
  by rewrite ascii_lower_not_upper, IH.
Qed.

Lemma ascii_lower_id c : Str.is_upper c = false → Str.ascii_lower c = c.
Proof. unfold Str.is_upper, Str.ascii_lower. cbn zeta. by intros ->. Qed.

Lemma lower_id s : Str.no_upper s = true → Str.lower s = s.
Proof.
  induction s as [|c s IH]; [done|]. cbn [Str.no_upper Str.lower].
  intros [Hc Hs]%andb_true_iff. apply negb_true_iff in Hc.
  by rewrite ascii_lower_id, IH.
Qed.

Lemma startswith_dot_cons s : Str.startswith ("." +:+ s) "." = true.
Proof. unfold Str.startswith. cbn. by destruct s. Qed.

Lemma startswith_dot_nonempty s : Str.startswith s "." = true → s ≠ "".
Proof. by destruct s. Qed.

Lemma normalize_one_dot e : Str.startswith (normalize_one e) "." = true.
Proof.
  unfold normalize_one, str_lower, ascii_lowercase.
  destruct (Str.startswith (Str.lower e) ".") eqn:E; cbn [negb]; [done|].
  apply startswith_dot_cons.
Qed.

Lemma normalize_one_no_upper e : Str.no_upper (normalize_one e) = true.
Proof.
  unfold normalize_one, str_lower, ascii_lowercase.
  destruct (Str.startswith (Str.lower e) "."); cbn [negb].
  - apply lower_no_upper.
  - cbn. apply lower_no_upper.
Qed.

Lemma elem_of_foldl_add {A} (f : A → string) (l : list A) (acc : gset string) x :
  x ∈ foldl (λ out e, out ∪ {[ f e ]}) acc l ↔ x ∈ acc ∨ ∃ e, e ∈ l ∧ x = f e.
Proof.
  revert acc. induction l as [|a l IH]; intros acc; cbn [foldl].
  - split; [by left|]. intros [?|(e & He & _)]; [done|]. by apply elem_of_nil in He.
  - rewrite IH. rewrite elem_of_union, elem_of_singleton. split.
    + intros [[?| ->]|(e & He & ->)]; [by left| |].
      * right. exists a. split; [left|done].
      * right. exists e. split; [by right|done].
    + intros [?|(e & He & ->)]; [by left; left|].
      apply elem_of_cons in He as [->|He]; [by left; right|].
      right. by exists e.
Qed.

Lemma normalize_default extensions :
  truthy extensions = false →
  _normalize_extensions extensions = list_to_set DEFAULT_SOURCE_EXTENSIONS.
Proof. intros E. unfold _normalize_extensions. by rewrite E. Qed.

Lemma normalize_elem extensions e :
  e ∈ _normalize_extensions extensions →
  Str.no_upper e = true ∧ Str.startswith e "." = true.
Proof.
  unfold _normalize_extensions.
  destruct (truthy extensions) eqn:E; cbn [negb].
  - rewrite elem_of_foldl_add. intros [H|(x & _ & ->)].
    + by apply not_elem_of_empty in H.
    + split; [apply normalize_one_no_upper | apply normalize_one_dot].
  - cbn. rewrite !elem_of_union, !elem_of_singleton.
    intros H. repeat destruct H as [H| H]; subst; try done.
Qed.

Lemma normalize_nonempty extensions : _normalize_extensions extensions ≠ ∅.
Proof.
  unfold _normalize_extensions.
  destruct extensions as [[|a l]|]; cbn [truthy negb]; try done.
  intros H.
  assert (normalize_one a ∈ (∅ : gset string)) as H0; [|by apply not_elem_of_empty in H0].
  rewrite <- H. cbn [default]. apply elem_of_foldl_add. right.
  exists a. split; [left|done].
Qed.

End normaliser.

(** ** Paths and [resolve] *)

Section paths.

Implicit Types (p q d acc : Path) (fs : filesystem).

Lemma is_root_not_dotdot r : PurePath.is_root r = true → r ≠ "..".
Proof. intros H ->. done. Qed.

Lemma is_absolute_app p q :
  PurePath.is_absolute p = true → PurePath.is_absolute (p ++ q) = true.
Proof. by destruct p. Qed.

Lemma is_absolute_nonempty p : PurePath.is_absolute p = true → p ≠ [].
Proof. by destruct p. Qed.

Lemma elem_of_removelast (l : list string) x : x ∈ removelast l → x ∈ l.
Proof.
  induction l as [|a l IH]; [done|].
  destruct l as [|b l]; cbn; [by intros ?%elem_of_nil|].
  intros [->|H]%elem_of_cons; [left|right; by apply IH].
Qed.


Lemma norm_step_abs acc seg :
  PurePath.is_absolute acc = true →
  PurePath.is_absolute (FS.norm_step acc seg) = true.
Proof.
  intros H. unfold FS.norm_step. destruct (decide (seg = "..")).
  - destruct acc as [|r [|x l]]; [done| |done].
    cbn in H. by rewrite H.
  - by apply is_absolute_app.
Qed.

Lemma fold_norm_abs q acc :
  PurePath.is_absolute acc = true →
  PurePath.is_absolute (fold_left FS.norm_step q acc) = true.
Proof.
  revert acc. induction q as [|s q IH]; intros acc H; [done|].
  cbn. by apply IH, norm_step_abs.
Qed.

Lemma normalise_abs p :
  PurePath.is_absolute p = true → PurePath.is_absolute (FS.normalise p) = true.
Proof.
  destruct p as [|r p]; [done|]. cbn. intros H. apply fold_norm_abs.
  unfold FS.norm_step. destruct (decide (r = "..")) as [->|]; [done|].
  done.
Qed.

Lemma absolute_abs fs p : PurePath.is_absolute (FS.absolute fs p) = true.
Proof.
  unfold FS.absolute. destruct (PurePath.is_absolute p) eqn:E; [done|].
  apply is_absolute_app, fs_cwd_abs.
Qed.

Lemma resolve_abs fs p : PurePath.is_absolute (FS.resolve fs p) = true.
Proof. apply normalise_abs, absolute_abs. Qed.

Lemma norm_step_subset acc seg x :
  x ∈ FS.norm_step acc seg → x ∈ acc ∨ x = seg.
Proof.
  unfold FS.norm_step. destruct (decide (seg = "..")).
  - destruct acc as [|r [|y l]].
    + by intros ?%elem_of_nil.
    + destruct (PurePath.is_root r); [by left|by intros ?%elem_of_nil].
    + intros H%elem_of_removelast. by left.
  - intros [?| ->%list_elem_of_singleton]%elem_of_app; [by left|by right].
Qed.

Lemma fold_norm_subset q acc x :
  x ∈ fold_left FS.norm_step q acc → x ∈ acc ∨ x ∈ q.
Proof.
  revert acc. induction q as [|s q IH]; intros acc; cbn; [by left|].
  intros [[?| ->]%norm_step_subset|?]%IH; [by left|right; left|right; by right].
Qed.

Lemma normalise_subset p x : x ∈ FS.normalise p → x ∈ p.
Proof. intros [H|H]%fold_norm_subset; [by apply elem_of_nil in H|done]. Qed.


Lemma resolve_subset fs d x :
  PurePath.is_absolute d = true → x ∈ FS.resolve fs d → x ∈ d.
Proof.
  intros H. unfold FS.resolve, FS.absolute. rewrite H. apply normalise_subset.
Qed.

Lemma norm_step_plain acc nm : nm ≠ ".." → FS.norm_step acc nm = acc ++ [nm].
Proof. intros H. unfold FS.norm_step. by destruct (decide (nm = "..")). Qed.



Lemma name_snoc acc nm : acc ≠ [] → PurePath.name (acc ++ [nm]) = nm.
Proof.
  destruct acc as [|a [|b l]]; [done| |]; intros _; [done|].
  change (List.last ((a :: b :: l) ++ [nm]) "" = nm).
  apply last_last.
Qed.



Lemma has_excluded_part_false p (excl : gset string) :
  _path_has_excluded_part p excl = false ↔ ∀ x, x ∈ p → x ∉ excl.
Proof.
  unfold _path_has_excluded_part. induction p as [|a p IH]; cbn.
  - split; [|done]. intros _ x Hx. by apply elem_of_nil in Hx.
  - rewrite orb_false_iff, IH, bool_decide_eq_false. split.
    + intros [Ha Hp] x [->|Hx]%elem_of_cons; auto.
    + intros H. split; [apply H; left|]. intros x Hx. apply H. by right.
Qed.

Lemma has_excluded_part_true p (excl : gset string) :
  _path_has_excluded_part p excl = true ↔ ∃ x, x ∈ p ∧ x ∈ excl.
Proof.
  unfold _path_has_excluded_part. rewrite existsb_exists. split.
  - intros (x & Hx & Hd). exists x. split; [by apply list_elem_of_In|].
    by apply bool_decide_eq_true in Hd.
  - intros (x & Hx & Hd). exists x. split; [by apply list_elem_of_In|].
    by apply bool_decide_eq_true.
Qed.

Lemma has_excluded_part_app p q (excl : gset string) :
  _path_has_excluded_part p excl = true →
  _path_has_excluded_part (p ++ q) excl = true.
Proof.
  rewrite !has_excluded_part_true. intros (x & Hx & Hd).
  exists x. split; [|done]. apply elem_of_app. by left.
Qed.

Lemma under_any_false fs d (cex : gset Path) :
  _path_under_any fs d cex = false ↔
  ∀ ex, ex ∈ cex → ¬ ex `prefix_of` FS.resolve fs d.
Proof.
  unfold _path_under_any. split.
  - intros H ex Hex Hp.
    assert (existsb (λ ex, PurePath.is_relative_to (FS.resolve fs d) ex)
              (elements cex) = true) as Ht; [|by rewrite Ht in H].
    apply existsb_exists. exists ex. split.
    + by apply list_elem_of_In, elem_of_elements.
    + by apply bool_decide_eq_true.
  - intros H. apply not_true_is_false. intros (ex & Hin & Hp)%existsb_exists.
    apply (H ex).
    + by apply elem_of_elements, list_elem_of_In.
    + by apply bool_decide_eq_true in Hp.
Qed.

End paths.

(** ** The tree walker *)

Lemma elem_of_sorted l x : x ∈ sorted l ↔ x ∈ l.
Proof. unfold sorted. by rewrite merge_sort_Permutation. Qed.

Lemma sorted_nil : sorted [] = [].
Proof. reflexivity. Qed.

Lemma elem_of_flat_map {A B} (f : A → list B) (l : list A) y :
  y ∈ flat_map f l ↔ ∃ x, x ∈ l ∧ y ∈ f x.
Proof.
  rewrite list_elem_of_In, in_flat_map. split; intros (x & H1 & H2); exists x;
    by rewrite ?list_elem_of_In in *.
Qed.

Lemma passes_filter_spec (exts : gset string) d e :
  passes_filter exts d e = true ↔
  (∀ es, e.2 ≠ Dir es) ∧ Str.lower (PurePath.suffix (d ++ [e.1])) ∈ exts.
Proof.
  unfold passes_filter. destruct e as [nm [|t|es]]; cbn.
  - rewrite bool_decide_eq_true. split; [by intros H|by intros [_ H]].
  - rewrite bool_decide_eq_true. split; [by intros H|by intros [_ H]].
  - split; [done|]. intros [H _]. by destruct (H es).
Qed.

Lemma resolved_paths_elem fs trace p :
  p ∈ resolved_paths fs trace ↔
  ∃ d es e, (d, es) ∈ trace ∧ e ∈ es ∧ p = FS.resolve_entry fs (d ++ [e.1]) e.2.
Proof.
  unfold resolved_paths. rewrite elem_of_flat_map. split.
  - intros ([d es] & Hin & (e & -> & He)%list_elem_of_fmap). by exists d, es, e.
  - intros (d & es & e & Hin & He & ->). exists (d, es). split; [done|].
    apply list_elem_of_fmap. by exists e.
Qed.

Section walker.

Context (fs : filesystem) (file_extensions exclude_dirs : gset string).
Context (cex : gset Path).

Lemma collect_files_elem d es e :
  e ∈ collect_files file_extensions d es →
  passes_filter file_extensions d e = true.
Proof.
  unfold collect_files. rewrite list_elem_of_filter. intros [H _].
  by apply Is_true_eq_true.
Qed.

Lemma walk_body_inv n : ∀ d0 d es,
  (d, es) ∈ walk_body fs file_extensions exclude_dirs cex d0 n →
  d0 `prefix_of` d ∧
  (d = d0 ∨ _path_has_excluded_part d exclude_dirs = false) ∧
  ∀ e, e ∈ es → collected_in fs file_extensions exclude_dirs cex d e.
Proof.
  induction n as [|t|es0 IH] using node_tree_ind; intros d0 d es.
  { by intros ?%elem_of_nil. }
  { by intros ?%elem_of_nil. }
  cbn [walk_body].
  destruct (_path_has_excluded_part d0 exclude_dirs) eqn:Hex.
  { intros [=-> ->]%list_elem_of_singleton. split; [done|]. split; [by left|].
    by intros e ?%elem_of_nil. }
  destruct (bool_decide (cex ≠ ∅) && _path_under_any fs d0 cex) eqn:Hun.
  { intros [=-> ->]%list_elem_of_singleton. split; [done|]. split; [by left|].
    by intros e ?%elem_of_nil. }
  intros [[=-> ->]|H]%elem_of_cons.
  - split; [done|]. split; [by left|]. intros e He.
    split; [done|]. split; [|by eapply collect_files_elem].
    intros Hne. apply andb_false_iff in Hun as [Hun|Hun]; [|done].
    by apply bool_decide_eq_false in Hun.
  - apply elem_of_flat_map in H as ([nm c] & Hin & H). cbn in H.
    destruct c as [|t|es']; [by apply elem_of_nil in H..|].
    case_bool_decide as Hnm; [by apply elem_of_nil in H|].
    rewrite Forall_forall in IH. specialize (IH _ Hin). cbn in IH.
    apply IH in H as (Hpre & Hd & Hfiles).
    assert (_path_has_excluded_part (d0 ++ [nm]) exclude_dirs = false) as Hex'.
    { apply has_excluded_part_false.
      intros x [Hx| ->%list_elem_of_singleton]%elem_of_app; [|done].
      by eapply has_excluded_part_false in Hex. }
    split; [|split; [|done]].
    + etrans; [|exact Hpre]. by apply prefix_app_r.
    + right. by destruct Hd as [->|Hd].
Qed.

Lemma os_walk_inv start d es :
  (d, es) ∈ os_walk fs file_extensions exclude_dirs cex start →
  start `prefix_of` d ∧
  (d = start ∨ _path_has_excluded_part d exclude_dirs = false) ∧
  ∀ e, e ∈ es → collected_in fs file_extensions exclude_dirs cex d e.
Proof.
  unfold os_walk. destruct (FS.lookup fs start); [|by intros ?%elem_of_nil].
  apply walk_body_inv.
Qed.

(** A start whose own path has an excluded segment collects nothing. *)
Lemma os_walk_excluded start :
  _path_has_excluded_part start exclude_dirs = true →
  resolved_paths fs (os_walk fs file_extensions exclude_dirs cex start) = [].
Proof.
  intros H. unfold os_walk.
  destruct (FS.lookup fs start) as [[|t|es]|]; [done|done| |done].
  cbn [walk_body]. by rewrite H.
Qed.

(** A directory is the first thing its own walk yields. *)
Lemma os_walk_start start :
  FS.is_dir fs start = true →
  ∃ es, (start, es) ∈ os_walk fs file_extensions exclude_dirs cex start.
Proof.
  unfold FS.is_dir, os_walk.
  destruct (FS.lookup fs start) as [[|t|es]|]; [done|done| |done].
  intros _. cbn [walk_body].
  destruct (_path_has_excluded_part start exclude_dirs);
    [eexists; left|].
  destruct (bool_decide (cex ≠ ∅) && _path_under_any fs start cex);
    eexists; left.
Qed.

End walker.

(** ** Where a walk starts *)

Section roots.

Implicit Types (fs : filesystem) (r start : Path) (f : string).

Lemma split_no_slash s : Forall (λ x, Str.no_slash x = true) (Str.split "/" s).
Proof.
  induction s as [|c s IH]; cbn [Str.split].
  - by constructor.
  - destruct (decide (c = "/"%char)) as [->|Hc].
    + by constructor.
    + destruct (Str.split "/" s) as [|w ws].
      * constructor; [|done]. cbn. by rewrite bool_decide_eq_false_2.
      * apply Forall_cons in IH as [Hw Hws]. constructor; [|done].
        cbn. by rewrite bool_decide_eq_false_2.
Qed.

Lemma startswith_char c s :
  Str.startswith s (String c "") =
    match s with
    | String c' _ => bool_decide (c' = c)
    | EmptyString => false
    end.
Proof.
  destruct s as [|c' s]; [done|]. unfold Str.startswith.
  change (String.prefix (String c "") (String c' s))
    with (if ascii_dec c c' then String.prefix "" s else false).
  destruct (ascii_dec c c') as [->|Hc].
  - rewrite bool_decide_eq_true_2 by done. by destruct s.
  - by rewrite bool_decide_eq_false_2 by congruence.
Qed.

Lemma root_of_relative c f : c ≠ "/"%char → PurePath.root_of (String c f) = [].
Proof.
  intros Hc. unfold PurePath.root_of.
  by destruct c as [[] [] [] [] [] [] [] []].
Qed.

Lemma isabs_false_of_string f :
  os_path_isabs f = false →
  PurePath.is_absolute (PurePath.of_string f) = false.
Proof.
  intros H. unfold PurePath.of_string.
  assert (PurePath.root_of f = []) as ->.
  { destruct f as [|c f]; [done|]. unfold os_path_isabs in H.
    rewrite startswith_char in H. apply bool_decide_eq_false in H.
    by apply root_of_relative. }
  cbn [app]. pose proof (split_no_slash f) as Hs.
  induction Hs as [|x l Hx Hl IH]; [done|].
  rewrite filter_cons. case_decide; [|done].
  cbn. unfold PurePath.is_root.
  apply orb_false_iff. split; apply bool_decide_eq_false; by intros ->.
Qed.

Lemma isabs_true_of_string f :
  os_path_isabs f = true →
  PurePath.is_absolute (PurePath.of_string f) = true.
Proof.
  unfold os_path_isabs. rewrite startswith_char.
  destruct f as [|c f]; [done|]. intros ->%bool_decide_eq_true.
  unfold PurePath.of_string.
  destruct f as [|c1 f]; [done|].
  destruct (decide (c1 = "/"%char)) as [->|H1].
  - destruct f as [|c2 f]; [done|].
    destruct (decide (c2 = "/"%char)) as [->|H2]; [done|].
    replace (PurePath.root_of (String "/" (String "/" (String c2 f))))
      with ["//"]; [done|].
    unfold PurePath.root_of. by destruct c2 as [[] [] [] [] [] [] [] []].
  - replace (PurePath.root_of (String "/" (String c1 f))) with ["/"]; [done|].
    unfold PurePath.root_of. by destruct c1 as [[] [] [] [] [] [] [] []].
Qed.

(** A relative folder is taken below the root, an absolute one as it is. *)
Lemma include_sub_spec r f :
  include_sub r f =
    if os_path_isabs f then PurePath.of_string f
    else r ++ PurePath.of_string f.
Proof.
  unfold include_sub. destruct (os_path_isabs f) eqn:E; cbn [negb]; [done|].
  unfold PurePath.joinpath. by rewrite isabs_false_of_string.
Qed.

Lemma include_sub_abs r f :
  PurePath.is_absolute r = true →
  PurePath.is_absolute (include_sub r f) = true.
Proof.
  intros H. rewrite include_sub_spec. destruct (os_path_isabs f) eqn:E.
  - by apply isabs_true_of_string.
  - by apply is_absolute_app.
Qed.

Lemma is_dir_exists fs p : FS.is_dir fs p = true → FS.exists_ fs p = true.
Proof.
  unfold FS.is_dir, FS.exists_. by destruct (FS.lookup fs p) as [[| |]|].
Qed.

Lemma exists_and_is_dir fs p :
  FS.exists_ fs p && FS.is_dir fs p = FS.is_dir fs p.
Proof.
  destruct (FS.is_dir fs p) eqn:E; [|by rewrite andb_false_r].
  by rewrite is_dir_exists.
Qed.

Lemma named_subs_elem fs r folders start :
  start ∈ named_subs fs r folders ↔
  ∃ f, f ∈ folders ∧ start = include_sub r f ∧ FS.is_dir fs start = true.
Proof.
  unfold named_subs. rewrite list_elem_of_filter, list_elem_of_fmap. split.
  - intros [Hd (f & -> & Hf)]. by exists f.
  - intros (f & Hf & -> & Hd). split; [done|]. by exists f.
Qed.

Lemma roots_to_walk_spec fs r inc :
  roots_to_walk fs r inc =
    match named_subs fs r (default [] inc) with
    | [] => [r]
    | subs => subs
    end.
Proof.
  unfold roots_to_walk, named_subs.
  destruct inc as [[|f l]|]; cbn [truthy default]; [done| |done].
  assert (∀ l' : list Path,
            filter (λ sub, FS.exists_ fs sub && FS.is_dir fs sub) l'
            = filter (λ sub, FS.is_dir fs sub = true) l') as Hf.
  { induction l' as [|a l' IH]; [done|].
    rewrite !filter_cons, IH, exists_and_is_dir.
    destruct (FS.is_dir fs a); by repeat case_decide. }
  rewrite Hf. by destruct (filter _ _).
Qed.

Lemma roots_to_walk_elem fs r inc start :
  start ∈ roots_to_walk fs r inc →
  start = r ∨
  ∃ f, f ∈ default [] inc ∧ start = include_sub r f ∧ FS.is_dir fs start = true.
Proof.
  rewrite roots_to_walk_spec.
  destruct (named_subs fs r (default [] inc)) as [|a l] eqn:E.
  - intros ->%list_elem_of_singleton. by left.
  - rewrite <- E. intros H%named_subs_elem. by right.
Qed.

Lemma roots_to_walk_abs fs r inc start :
  PurePath.is_absolute r = true →
  start ∈ roots_to_walk fs r inc → PurePath.is_absolute start = true.
Proof.
  intros Hr [->|(f & _ & -> & _)]%roots_to_walk_elem; [done|].
  by apply include_sub_abs.
Qed.

End roots.

(** ** Calls of the walker *)

Section calls.

Context (fs : filesystem) (root_path : Path) (file_extensions : gset string).
Context (include_folders : option (list string)) (exclude_dirs : gset string).
Context (exclude_paths : option (gset Path)).

Lemma walk_trace_missing :
  FS.exists_ fs (FS.resolve fs root_path) = false ∨
  FS.is_dir fs (FS.resolve fs root_path) = false →
  walk_trace fs root_path file_extensions include_folders exclude_dirs
    exclude_paths = [].
Proof. unfold walk_trace. by intros [-> | ->]; rewrite ?orb_true_r. Qed.

Lemma walk_trace_present :
  FS.is_dir fs (FS.resolve fs root_path) = true →
  walk_trace fs root_path file_extensions include_folders exclude_dirs
    exclude_paths =
  flat_map (os_walk fs file_extensions exclude_dirs (combined fs exclude_paths))
    (roots_to_walk fs (FS.resolve fs root_path) include_folders).
Proof. intros H. unfold walk_trace. by rewrite H, (is_dir_exists _ _ H). Qed.

Lemma prefix_abs (p q : Path) :
  p `prefix_of` q → PurePath.is_absolute p = true →
  PurePath.is_absolute q = true.
Proof. intros [k ->]. apply is_absolute_app. Qed.

Lemma walk_trace_inv d es :
  (d, es) ∈ walk_trace fs root_path file_extensions include_folders
              exclude_dirs exclude_paths →
  ∃ start,
    start ∈ roots_to_walk fs (FS.resolve fs root_path) include_folders ∧
    start `prefix_of` d ∧
    PurePath.is_absolute d = true ∧
    (d = start ∨ _path_has_excluded_part d exclude_dirs = false) ∧
    ∀ e, e ∈ es →
         collected_in fs file_extensions exclude_dirs
           (combined fs exclude_paths) d e.
Proof.
  destruct (FS.is_dir fs (FS.resolve fs root_path)) eqn:Hd.
  - rewrite walk_trace_present by done.
    intros (start & Hs & H)%elem_of_flat_map.
    apply os_walk_inv in H as (Hp & Hx & Hf).
    exists start. split; [done|]. split; [done|]. split; [|by split].
    eapply prefix_abs; [done|].
    eapply roots_to_walk_abs; [apply resolve_abs|done].
  - rewrite walk_trace_missing by by right. by intros ?%elem_of_nil.
Qed.

(** Every resolved path of a call comes from an entry collected in a
    visited directory. *)
Lemma walk_paths_elem p :
  p ∈ walk_paths fs root_path file_extensions include_folders exclude_dirs
        exclude_paths →
  ∃ d e, PurePath.is_absolute d = true ∧
         collected_in fs file_extensions exclude_dirs
           (combined fs exclude_paths) d e ∧
         p = FS.resolve_entry fs (d ++ [e.1]) e.2.
Proof.
  unfold walk_paths. rewrite resolved_paths_elem.
  intros (d & es & e & (start & _ & _ & Ha & _ & Hf)%walk_trace_inv & He & ->).
  exists d, e. split; [done|]. split; [by apply Hf|done].
Qed.

Lemma walk_for_files_elem s :
  s ∈ _walk_for_files fs root_path file_extensions include_folders
        exclude_dirs exclude_paths ↔
  ∃ p, p ∈ walk_paths fs root_path file_extensions include_folders
             exclude_dirs exclude_paths ∧ s = PurePath.to_string p.
Proof.
  unfold _walk_for_files. rewrite elem_of_sorted, list_elem_of_fmap.
  split; intros (p & H1 & H2); by exists p.
Qed.

Lemma resolved_paths_nil {A} (f : A → list (Path * list (string * node)))
    (l : list A) :
  (∀ x, x ∈ l → resolved_paths fs (f x) = []) →
  resolved_paths fs (flat_map f l) = [].
Proof.
  unfold resolved_paths.
  induction l as [|a l IH]; intros H; [done|].
  cbn [flat_map]. rewrite flat_map_app, H by left.
  cbn [app]. apply IH. intros x Hx. apply H. by right.
Qed.

(** When every directory the walk starts from has an excluded segment,
    nothing is collected. *)
Lemma walk_paths_starts_excluded :
  (∀ start,
     start ∈ roots_to_walk fs (FS.resolve fs root_path) include_folders →
     _path_has_excluded_part start exclude_dirs = true) →
  walk_paths fs root_path file_extensions include_folders exclude_dirs
    exclude_paths = [].
Proof.
  intros H. unfold walk_paths.
  destruct (FS.is_dir fs (FS.resolve fs root_path)) eqn:Hd.
  - rewrite walk_trace_present by done. apply resolved_paths_nil.
    intros start Hs. by apply os_walk_excluded, H.
  - by rewrite walk_trace_missing by by right.
Qed.

(** Without absolute entries in [include_folders], every start lies at or
    below the root. *)
Lemma roots_below_root start :
  (∀ f, f ∈ default [] include_folders → os_path_isabs f = false) →
  start ∈ roots_to_walk fs (FS.resolve fs root_path) include_folders →
  FS.resolve fs root_path `prefix_of` start.
Proof.
  intros Hrel [->|(f & Hf & -> & _)]%roots_to_walk_elem; [done|].
  rewrite include_sub_spec, (Hrel f Hf). by apply prefix_app_r.
Qed.

End calls.

(** ** The collectors *)

Section collectors.

Implicit Types (fs : filesystem) (p d : Path).

Lemma norm_step_no_dotdot acc seg : ".." ∉ acc → ".." ∉ FS.norm_step acc seg.
Proof.
  intros H. unfold FS.norm_step. destruct (decide (seg = "..")) as [->|Hs].
  - destruct acc as [|r [|y l]]; [done| |].
    + destruct (PurePath.is_root r); [done|by intros ?%elem_of_nil].
    + by intros ?%elem_of_removelast.
  - intros [?|?%list_elem_of_singleton]%elem_of_app; [done|congruence].
Qed.

Lemma fold_norm_no_dotdot q acc :
  ".." ∉ acc → ".." ∉ fold_left FS.norm_step q acc.
Proof.
  revert acc. induction q as [|s q IH]; intros acc H; [done|].
  cbn. by apply IH, norm_step_no_dotdot.
Qed.

Lemma fold_norm_plain q acc :
  ".." ∉ q → fold_left FS.norm_step q acc = acc ++ q.
Proof.
  revert acc. induction q as [|s q IH]; intros acc H; cbn.
  - by rewrite app_nil_r.
  - rewrite IH, norm_step_plain, <- app_assoc; [done| |].
    + intros ->. apply H. left.
    + intros Hq. apply H. by right.
Qed.

Lemma resolve_idem fs p : FS.resolve fs (FS.resolve fs p) = FS.resolve fs p.
Proof.
  unfold FS.resolve at 1. unfold FS.absolute. rewrite resolve_abs.
  unfold FS.normalise. rewrite fold_norm_plain; [done|].
  apply fold_norm_no_dotdot. by intros ?%elem_of_nil.
Qed.




Lemma elem_of_foldl_union {A} (f : A → gset string) (l : list A)
    (acc : gset string) x :
  x ∈ foldl (λ acc a, acc ∪ f a) acc l ↔ x ∈ acc ∨ ∃ a, a ∈ l ∧ x ∈ f a.
Proof.
  revert acc. induction l as [|a l IH]; intros acc; cbn [foldl].
  - split; [by left|]. intros [?|(e & He & _)]; [done|]. by apply elem_of_nil in He.
  - rewrite IH, elem_of_union. split.
    + intros [[?|?]|(e & He & ?)]; [by left| |].
      * right. exists a. split; [left|done].
      * right. exists e. split; [by right|done].
    + intros [?|(e & He & ?)]; [by left; left|].
      apply elem_of_cons in He as [->|He]; [by left; right|].
      right. by exists e.
Qed.



Lemma exclude_path_resolved fs project_path exclude_folders ex :
  ex ∈ exclude_path_set fs project_path exclude_folders →
  FS.resolve fs ex = ex.
Proof.
  unfold exclude_path_set. destruct (truthy exclude_folders).
  - rewrite elem_of_list_to_set, list_elem_of_fmap. intros (f & -> & _).
    unfold exclude_path_of. destruct (os_path_isabs f); apply resolve_idem.
  - by intros ?%not_elem_of_empty.
Qed.

End collectors.

(** ** The claims about the walker *)

(** Closed facts about the example trees are settled by evaluation. *)
Ltac by_evaluation := apply (bool_decide_unpack _); vm_compute; exact I.

(** C7. A root that, once resolved, does not exist or is not a directory
    makes [_walk_for_files] return the empty list: no directory is visited
    and nothing is collected.  The walker is a total function, so the call
    returns normally. *)
Theorem walk_missing_root_empty (fs : filesystem) (root_path : Path)
    (file_extensions : gset string) (include_folders : option (list string))
    (exclude_dirs : gset string) (exclude_paths : option (gset Path)) :
  FS.exists_ fs (FS.resolve fs root_path) = false ∨
  FS.is_dir fs (FS.resolve fs root_path) = false →
  walk_trace fs root_path file_extensions include_folders exclude_dirs
    exclude_paths = [] ∧
  _walk_for_files fs root_path file_extensions include_folders exclude_dirs
    exclude_paths = [].
Proof.
  intros H. unfold _walk_for_files, walk_paths.
  rewrite walk_trace_missing by done. by split.
Qed.

(** Witness of C7: [/proj/nosuch] does not exist, [/proj/src/main.cpp] is
    not a directory. *)
Lemma walk_missing_root_empty_witness :
  _walk_for_files project_fs ["/"; "proj"; "nosuch"] {[ ".h" ]} None
    DEFAULT_EXCLUDE_DIRS None = [] ∧
  _walk_for_files project_fs ["/"; "proj"; "src"; "main.cpp"] {[ ".cpp" ]}
    (Some ["src"]) DEFAULT_EXCLUDE_DIRS None = [].
Proof.
  split.
  - apply (walk_missing_root_empty project_fs ["/"; "proj"; "nosuch"]).
    left. vm_compute. reflexivity.
  - apply (walk_missing_root_empty project_fs ["/"; "proj"; "src"; "main.cpp"]).
    right. vm_compute. reflexivity.
Defined.



(** C4, as amended.  If the resolved root has a segment in [exclude_dirs]
    and no entry of [include_folders] is an absolute path, every directory
    the walk starts from lies at or below the root, is pruned at once, and
    the call returns the empty list. *)
Theorem excluded_root_collects_nothing (fs : filesystem) (root_path : Path)
    (file_extensions : gset string) (include_folders : option (list string))
    (exclude_dirs : gset string) (exclude_paths : option (gset Path)) :
  _path_has_excluded_part (FS.resolve fs root_path) exclude_dirs = true →
  (∀ f, f ∈ default [] include_folders → os_path_isabs f = false) →
  _walk_for_files fs root_path file_extensions include_folders exclude_dirs
    exclude_paths = [].
Proof.
  intros Hex Hrel. unfold _walk_for_files.
  rewrite walk_paths_starts_excluded; [done|].
  intros start [k ->]%roots_below_root; [|done].
  by apply has_excluded_part_app.
Qed.

(** Witness of C4: the library root [/proj/build/_deps/zlib-src] lies below
    [build]; walked as a whole or restricted to [include], it yields
    nothing. *)
Lemma excluded_root_collects_nothing_witness :
  _walk_for_files project_fs ["/"; "proj"; "build"; "_deps"; "zlib-src"]
    {[ ".h" ]} (Some ["include"]) DEFAULT_EXCLUDE_DIRS None = [].
Proof.
  apply (excluded_root_collects_nothing project_fs
           ["/"; "proj"; "build"; "_deps"; "zlib-src"]).
  - vm_compute. reflexivity.
  - intros f [->|H]%elem_of_cons; [reflexivity|]. by apply elem_of_nil in H.
Defined.

(** C4 as stated fails for an absolute entry of [include_folders]: the
    root [/build] has the excluded segment [build], yet the walk goes to
    [/other] and returns its header. *)
Lemma excluded_root_absolute_include :
  ¬ excluded_root_as_specified project_fs ["/"; "build"] {[ ".h" ]}
      (Some ["/other"]) {[ "build" ]} None.
Proof.
  intros H.
  assert (_walk_for_files project_fs ["/"; "build"] {[ ".h" ]}
            (Some ["/other"]) {[ "build" ]} None = ["/other/a.h"]) as E
    by (vm_compute; reflexivity).
  rewrite H in E; [discriminate|]. vm_compute. reflexivity.
Qed.

(** ** The claims about the collectors *)

Lemma collect_elem fs libraries project_dir file_extensions include_folders
    exclude_folders exclude_dirs include_libraries s :
  s ∈ collect fs libraries project_dir file_extensions include_folders
        exclude_folders exclude_dirs include_libraries ↔
  ∃ p, p ∈ collected_paths fs libraries project_dir file_extensions
             include_folders exclude_folders exclude_dirs include_libraries ∧
       s = PurePath.to_string p.
Proof.
  unfold collect, collected_paths. cbn zeta.
  rewrite elem_of_sorted, elem_of_elements.
  destruct include_libraries.
  - rewrite elem_of_foldl_union, elem_of_list_to_set, walk_for_files_elem.
    split.
    + intros [(p & Hp & ->)|(lib & Hl & Hs)].
      * exists p. split; [|done]. apply elem_of_app. by left.
      * apply elem_of_list_to_set, walk_for_files_elem in Hs as (p & Hp & ->).
        exists p. split; [|done]. apply elem_of_app. right.
        apply elem_of_flat_map. by exists lib.
    + intros (p & [Hp|(lib & Hl & Hp)%elem_of_flat_map]%elem_of_app & ->).
      * left. by exists p.
      * right. exists lib. split; [done|].
        apply elem_of_list_to_set, walk_for_files_elem. by exists p.
  - rewrite elem_of_list_to_set, walk_for_files_elem, app_nil_r. done.
Qed.




(** C2 at the failing input.  The project holds
    [build/_deps/zlib-src/include/zlib.h]; the library root is discovered,
    but its own path has the excluded segment [build], so its walk is
    pruned at once and the header is missing from the result of
    [get_all_files_desktop], also when [get_all_files_std] dispatches to it
    with no environment variable set. *)
Theorem desktop_misses_fetched_library :
  FS.lookup project_fs
    ["/"; "proj"; "build"; "_deps"; "zlib-src"; "include"; "zlib.h"]
    = Some File ∧
  _discover_libraries_desktop project_fs "/proj"
    = [["/"; "proj"; "build"; "_deps"; "zlib-src"]] ∧
  _walk_for_files project_fs ["/"; "proj"; "build"; "_deps"; "zlib-src"]
    (_normalize_extensions None) None (exclude_dir_set None None) None = [] ∧
  get_all_files_desktop project_fs "/proj" None None None None true
    = ["/proj/include/foo.h"; "/proj/src/main.cpp"] ∧
  get_all_files_std project_fs ∅ (Some "/proj") None None None None true
    = ["/proj/include/foo.h"; "/proj/src/main.cpp"] ∧
  "/proj/build/_deps/zlib-src/include/zlib.h"
    ∉ get_all_files_desktop project_fs "/proj" None None None None true.
Proof.
  repeat split; try (vm_compute; reflexivity). by_evaluation.
Qed.

(** C3 at the failing input.  The project holds
    [.pio/libdeps/uno/Wire/src/Wire.h]; the library root is discovered by
    the embedded discoverer, but its own path has the excluded segment
    [.pio], so the header is missing from the result of
    [get_all_files_arduino].  It is missing from the result of
    [get_all_files_desktop] as well, as the claim says. *)
Theorem arduino_misses_fetched_library :
  FS.lookup project_fs
    ["/"; "proj"; ".pio"; "libdeps"; "uno"; "Wire"; "src"; "Wire.h"]
    = Some File ∧
  _discover_libraries_arduino project_fs "/proj"
    = [["/"; "proj"; ".pio"; "libdeps"; "uno"; "Wire"]] ∧
  _walk_for_files project_fs ["/"; "proj"; ".pio"; "libdeps"; "uno"; "Wire"]
    (_normalize_extensions None) None (exclude_dir_set None None) None = [] ∧
  get_all_files_arduino project_fs "/proj" None None None None true
    = ["/proj/include/foo.h"; "/proj/src/main.cpp"] ∧
  ("/proj/.pio/libdeps/uno/Wire/src/Wire.h"
     ∉ get_all_files_arduino project_fs "/proj" None None None None true) ∧
  ("/proj/.pio/libdeps/uno/Wire/src/Wire.h"
     ∉ get_all_files_desktop project_fs "/proj" None None None None true).
Proof.
  repeat split; try (vm_compute; reflexivity); by_evaluation.
Qed.

(** ** The claims about the normaliser, the exclude names and the dispatcher *)

Section lowercase.

Context `{L : Lowercase}.

Lemma normalize_one_starts_dot e : Str.startswith (normalize_one e) "." = true.
Proof.
  unfold normalize_one. cbn zeta.
  destruct (Str.startswith (str_lower e) ".") eqn:E; cbn [negb]; [done|].
  apply startswith_dot_cons.
Qed.

Lemma normalize_one_lowercase e :
  (∀ s, str_lower (str_lower s) = str_lower s) →
  (∀ s, str_lower ("." +:+ s) = "." +:+ str_lower s) →
  str_lower (normalize_one e) = normalize_one e.
Proof.
  intros Hidem Hdot. unfold normalize_one. cbn zeta.
  destruct (Str.startswith (str_lower e) "."); cbn [negb]; [done|].
  by rewrite Hdot, Hidem.
Qed.

Lemma normalize_default_ascii extensions :
  (∀ s, Str.is_ascii s = true → str_lower s = Str.lower s) →
  truthy extensions = false →
  _normalize_extensions extensions = list_to_set DEFAULT_SOURCE_EXTENSIONS.
Proof.
  intros Hascii E. unfold _normalize_extensions. rewrite E. cbn [negb].
  unfold DEFAULT_SOURCE_EXTENSIONS. cbn [map].
  by rewrite !Hascii by reflexivity.
Qed.

Lemma normalize_some_nonempty a l : _normalize_extensions (Some (a :: l)) ≠ ∅.
Proof.
  unfold _normalize_extensions. cbn [truthy negb]. intros H.
  assert (normalize_one a ∈ (∅ : gset string)) as H0;
    [|by apply not_elem_of_empty in H0].
  rewrite <- H. cbn [default]. apply elem_of_foldl_add. right.
  exists a. split; [left|done].
Qed.

End lowercase.

(** C8. Let [str.lower] be any function that lower-cases what is already
    lower-cased to itself, that lower-cases a string behind a dot as it does
    the string alone, and that is ASCII lower-casing on ASCII strings; the
    function of Python is one.  Then every member of the normalised
    extension set is lowercase (lower-casing it gives it back) and begins
    with a dot; for an absent or empty input the set is the default set;
    the set is never empty. *)
Theorem normalize_extensions_canonical `{L : Lowercase}
    (extensions : option (list string)) :
  (∀ s, str_lower (str_lower s) = str_lower s) →
  (∀ s, str_lower ("." +:+ s) = "." +:+ str_lower s) →
  (∀ s, Str.is_ascii s = true → str_lower s = Str.lower s) →
  (∀ e, e ∈ _normalize_extensions extensions →
        str_lower e = e ∧ Str.startswith e "." = true) ∧
  _normalize_extensions None = list_to_set DEFAULT_SOURCE_EXTENSIONS ∧
  _normalize_extensions (Some []) = list_to_set DEFAULT_SOURCE_EXTENSIONS ∧
  _normalize_extensions extensions ≠ ∅.
Proof.
  intros Hidem Hdot Hascii.
  assert (∀ e : string, e ∈ DEFAULT_SOURCE_EXTENSIONS → str_lower e = e)
    as Hdef.
  { intros e He. rewrite Hascii.
    - revert e He. apply Forall_forall. by repeat constructor.
    - revert e He. apply Forall_forall. by repeat constructor. }
  split; [|split; [|split]].
  - intros e. destruct (truthy extensions) eqn:E.
    + unfold _normalize_extensions. rewrite E. cbn [negb].
      rewrite elem_of_foldl_add. intros [H|(x & _ & ->)].
      * by apply not_elem_of_empty in H.
      * split; [by apply normalize_one_lowercase|].
        apply normalize_one_starts_dot.
    + rewrite normalize_default_ascii by done.
      intros He%elem_of_list_to_set. split; [by apply Hdef|].
      revert e He. apply Forall_forall. by repeat constructor.
  - by apply normalize_default_ascii.
  - by apply normalize_default_ascii.
  - destruct extensions as [[|a l]|]; [| apply normalize_some_nonempty |];
      rewrite normalize_default_ascii by done; intros H;
      (assert (".h" ∈ (∅ : gset string)) as H0;
         [rewrite <- H; apply elem_of_list_to_set; left
         |by apply not_elem_of_empty in H0]).
Qed.

(** Witness: ASCII lower-casing is such a function. *)
Lemma normalize_extensions_canonical_witness :
  (∀ e, e ∈ _normalize_extensions (Some ["H"; ".Cpp"]) →
        Str.lower e = e ∧ Str.startswith e "." = true) ∧
  _normalize_extensions None = list_to_set DEFAULT_SOURCE_EXTENSIONS ∧
  _normalize_extensions (Some []) = list_to_set DEFAULT_SOURCE_EXTENSIONS ∧
  _normalize_extensions (Some ["H"; ".Cpp"]) ≠ ∅.
Proof.
  apply (@normalize_extensions_canonical ascii_lowercase
           (Some ["H"; ".Cpp"])).
  - intros s. apply lower_id, lower_no_upper.
  - intros s. reflexivity.
  - intros s _. reflexivity.
Defined.

Lemma strip_name_lstrip d : strip_name d = Str.lstrip_dots d.
Proof.
  unfold strip_name. rewrite startswith_char.
  destruct d as [|c d]; [done|]. case_bool_decide as Hc; [done|].
  cbn. by destruct c as [[] [] [] [] [] [] [] []].
Qed.

(** The members of the effective exclude-name set: the default names,
    every caller-supplied name with its leading dots removed, and the first
    part of every caller-supplied exclude folder (the folder string itself
    when it has no part). *)
Theorem exclude_dir_set_members (exclude_folders exclude_dirs : option (list string))
    (x : string) :
  x ∈ exclude_dir_set exclude_folders exclude_dirs ↔
  x ∈ DEFAULT_EXCLUDE_DIRS ∨
  (∃ d, d ∈ default [] exclude_dirs ∧ x = Str.lstrip_dots d) ∨
  (∃ f, f ∈ default [] exclude_folders ∧
        x = match PurePath.of_string f with part :: _ => part | [] => f end).
Proof.
  unfold exclude_dir_set.
  assert (∀ (l : option (list string)) (g : string → string) (s0 : gset string),
            x ∈ (if truthy l then s0 ∪ list_to_set (map g (default [] l)) else s0)
            ↔ x ∈ s0 ∨ ∃ a, a ∈ default [] l ∧ x = g a) as Hstep.
  { intros l g s0. destruct l as [[|a l]|]; cbn [truthy from_option id].
    - split; [by left|]. intros [?|(a & Ha & _)]; [done|]. by apply elem_of_nil in Ha.
    - rewrite elem_of_union, elem_of_list_to_set, list_elem_of_fmap.
      split; (intros [?|(b & H1 & H2)]; [by left|right; by exists b]).
    - split; [by left|]. intros [?|(a & Ha & _)]; [done|]. by apply elem_of_nil in Ha. }
  rewrite (Hstep exclude_folders first_part), (Hstep exclude_dirs strip_name).
  split.
  - intros [[?|(d & Hd & ->)]|(f & Hf & ->)]; [by left| |].
    + right; left. exists d. by rewrite strip_name_lstrip.
    + right; right. by exists f.
  - intros [?|[(d & Hd & ->)|(f & Hf & ->)]]; [by left; left| |].
    + left; right. exists d. by rewrite strip_name_lstrip.
    + right. by exists f.
Qed.

(** C9.  A caller-supplied exclude name that begins with a dot is not
    skipped.  The collectors enter it with its leading dots removed, so for
    [exclude_dirs=[".cache"]] the set holds ["cache"] and not [".cache"]: it
    differs from the defaults merged with the names as given, the directory
    [.cache] is still walked and the directory [cache], which nobody named,
    is skipped. *)
Theorem dotted_exclude_name_still_walked :
  (".cache" ∉ exclude_dir_set None (Some [".cache"])) ∧
  ("cache" ∈ exclude_dir_set None (Some [".cache"])) ∧
  exclude_dir_set None (Some [".cache"])
    ≠ exclude_names_as_specified None (Some [".cache"]) ∧
  get_all_files_desktop cache_fs "/proj" None None None (Some [".cache"]) true
    = ["/proj/.cache/gen.h"; "/proj/src/main.cpp"] ∧
  get_all_files_arduino cache_fs "/proj" None None None (Some [".cache"]) true
    = ["/proj/.cache/gen.h"; "/proj/src/main.cpp"] ∧
  get_all_files_desktop cache_fs "/proj" None None None None true
    = ["/proj/.cache/gen.h"; "/proj/cache/keep.h"; "/proj/src/main.cpp"].
Proof.
  split; [by_evaluation|]. split; [by_evaluation|].
  split; [|split; [by_evaluation|split; by_evaluation]].
  intros E.
  assert (".cache" ∈ exclude_names_as_specified None (Some [".cache"])) as H
    by by_evaluation.
  rewrite <- E in H. revert H. by_evaluation.
Qed.

Lemma to_string_absolute_nonempty (p : Path) :
  PurePath.is_absolute p = true → PurePath.to_string p ≠ "".
Proof.
  destruct p as [|r ps]; [done|]. cbn. intros H. rewrite H.
  unfold PurePath.is_root in H. apply orb_true_iff in H.
  by destruct H as [->%bool_decide_eq_true| ->%bool_decide_eq_true].
Qed.

Lemma std_project_dir_truthy fs env project_dir :
  str_truthy (Some (std_project_dir fs env project_dir)) = true.
Proof.
  unfold std_project_dir.
  set (pd := if negb (str_truthy project_dir) then _ else _).
  destruct (str_truthy pd) eqn:E; cbn [negb].
  - destruct pd as [s|]; [|done]. exact E.
  - cbn. apply negb_true_iff, bool_decide_eq_false.
    apply to_string_absolute_nonempty, fs_cwd_abs.
Qed.

(** C10. [_is_cmake_build] answers desktop whenever the desktop variable
    has a value, whatever the embedded variable holds; embedded when only
    the embedded variable has a value; with neither, desktop when
    [build/_deps] exists under the project directory, else embedded when
    [.pio/libdeps] exists, else desktop.  [get_all_files_std] calls it on a
    project directory that is never empty and delegates to the collector
    of the chosen flavour. *)
Theorem dispatcher_policy (fs : filesystem) (env : environ)
    (project_dir : option string)
    (file_extensions include_folders exclude_folders exclude_dirs
       : option (list string))
    (include_libraries : bool) :
  let desktop_signal := str_truthy (env !! "CMAKE_PROJECT_DIR") in
  let embedded_signal := str_truthy (env !! "PROJECT_DIR") in
  let cmake := _is_cmake_build fs env project_dir in
  let dir := std_project_dir fs env project_dir in
  (desktop_signal = true → cmake = true) ∧
  (desktop_signal = false → embedded_signal = true → cmake = false) ∧
  (desktop_signal = false → embedded_signal = false →
   ∀ d, project_dir = Some d → d ≠ "" →
     let proj := FS.resolve fs (PurePath.of_string d) in
     let build_deps := FS.exists_ fs (proj ++ ["build"; "_deps"]) in
     let pio_libdeps := FS.exists_ fs (proj ++ [".pio"; "libdeps"]) in
     (build_deps = true → cmake = true) ∧
     (build_deps = false → pio_libdeps = true → cmake = false) ∧
     (build_deps = false → pio_libdeps = false → cmake = true)) ∧
  (desktop_signal = false → embedded_signal = false →
   str_truthy project_dir = false → cmake = true) ∧
  dir ≠ "" ∧
  get_all_files_std fs env project_dir file_extensions include_folders
    exclude_folders exclude_dirs include_libraries =
  (if _is_cmake_build fs env (Some dir)
   then get_all_files_desktop fs dir file_extensions include_folders
          exclude_folders exclude_dirs include_libraries
   else get_all_files_arduino fs dir file_extensions include_folders
          exclude_folders exclude_dirs include_libraries).
Proof.
  cbn zeta. unfold _is_cmake_build.
  split; [by intros ->|]. split; [by intros -> ->|].
  split; [|split; [by intros -> -> ->|split; [|done]]].
  - intros -> -> d -> Hd. cbn [str_truthy from_option id].
    rewrite bool_decide_eq_false_2 by done. cbn [negb].
    split; [by intros ->|]. split; [by intros -> ->|by intros -> ->].
  - pose proof (std_project_dir_truthy fs env project_dir) as H.
    cbn in H. apply negb_true_iff, bool_decide_eq_false in H. exact H.
Qed.

(** ** Discovered libraries *)

Section libraries.

Implicit Types (fs : filesystem) (st : list Path * gset string).

Lemma valid_name_not_dotdot nm : valid_name nm = true → nm ≠ "..".
Proof.
  unfold valid_name. intros H ->. by rewrite (bool_decide_eq_true_2 _ eq_refl),
    andb_false_r in H.
Qed.

Lemma entry_ok es s n :
  names_ok (Dir es) = true → FS.entry es s = Some n →
  valid_name s = true ∧ names_ok n = true.
Proof.
  cbn [names_ok]. induction es as [|[k c] es IH]; [done|].
  cbn [forallb FS.entry fst snd].
  intros [[Hk Hc]%andb_true_iff Hes]%andb_true_iff.
  destruct (decide (k = s)) as [->|]; [by intros [= ->]|]. by apply IH.
Qed.

Lemma lookup_from_ok segs : ∀ anc cur n,
  names_ok cur = true → Forall (λ a, names_ok a = true) anc →
  FS.lookup_from anc cur segs = Some n → names_ok n = true.
Proof.
  induction segs as [|s segs IH]; intros anc cur n Hcur Hanc; cbn.
  { by intros [= ->]. }
  destruct cur as [|t|es]; [done|done|].
  destruct (decide (s = "..")).
  - destruct anc as [|a anc]; [by apply IH|].
    apply Forall_cons in Hanc as [Ha Hanc]. by apply IH.
  - destruct (FS.entry es s) as [c|] eqn:E; [|done].
    apply entry_ok in E as [_ Hc]; [|done].
    apply IH; [done|]. by constructor.
Qed.

Lemma lookup_ok fs p n : FS.lookup fs p = Some n → names_ok n = true.
Proof.
  unfold FS.lookup. destruct (FS.absolute fs p) as [|r segs]; [done|].
  destruct (PurePath.is_root r); [|done].
  apply lookup_from_ok; [apply fs_names_ok|constructor].
Qed.

(** The children [iterdir] yields carry file names. *)
Lemma iterdir_elem fs (p : Path) (child : Path * node) :
  child ∈ FS.iterdir fs p →
  ∃ nm, child.1 = p ++ [nm] ∧ valid_name nm = true.
Proof.
  unfold FS.iterdir. destruct (FS.lookup fs p) as [[|t|es]|] eqn:E;
    try by intros ?%elem_of_nil.
  apply lookup_ok in E. cbn [names_ok] in E.
  rewrite forallb_forall in E.
  intros ([nm c] & -> & Hin)%list_elem_of_fmap. exists nm. split; [done|].
  apply list_elem_of_In, E in Hin. by apply andb_true_iff in Hin as [? _].
Qed.

Lemma resolve_below fs x l :
  ".." ∉ l → FS.resolve fs (FS.resolve fs x ++ l) = FS.resolve fs x ++ l.
Proof.
  intros Hl. unfold FS.resolve at 1. unfold FS.absolute.
  rewrite (is_absolute_app _ l (resolve_abs fs x)).
  unfold FS.normalise. rewrite fold_norm_plain; [done|].
  intros [H|H]%elem_of_app; [|done]. revert H.
  apply fold_norm_no_dotdot. by intros ?%elem_of_nil.
Qed.

Lemma add_library_elem st r x :
  x ∈ (add_library st r).1 → x ∈ st.1 ∨ x = r.
Proof.
  unfold add_library. case_bool_decide; [by left|]. cbn.
  intros [?| ->%list_elem_of_singleton]%elem_of_app; [by left|by right].
Qed.

Lemma foldl_libraries_inv {A} (Q : Path → Prop)
    (step : list Path * gset string → A → list Path * gset string)
    (l : list A) st :
  (∀ st a, a ∈ l → (∀ x, x ∈ st.1 → Q x) → ∀ x, x ∈ (step st a).1 → Q x) →
  (∀ x, x ∈ st.1 → Q x) →
  ∀ x, x ∈ (foldl step st l).1 → Q x.
Proof.
  revert st. induction l as [|a l IH]; intros st Hstep Hst; [done|].
  cbn [foldl]. apply IH.
  - intros st' a' Ha'. apply Hstep. by right.
  - apply Hstep; [left|done].
Qed.

(** Every library root the desktop discoverer returns lies below
    [build]. *)
Lemma discovered_desktop_below_build fs project_dir lib :
  lib ∈ _discover_libraries_desktop fs project_dir →
  "build" ∈ FS.resolve fs lib.
Proof.
  unfold _discover_libraries_desktop.
  set (pp := FS.resolve fs (PurePath.of_string project_dir)).
  destruct (negb _ || negb _); [by intros ?%elem_of_nil|].
  apply (foldl_libraries_inv (λ x, "build" ∈ FS.resolve fs x));
    [|by intros x ?%elem_of_nil].
  intros st child (nm & Hc & Hnm%valid_name_not_dotdot)%iterdir_elem Hst x.
  assert ("build" ∈ FS.resolve fs (FS.resolve fs child.1)) as Hb.
  { rewrite resolve_idem, Hc, <- app_assoc. unfold pp. rewrite resolve_below.
    - apply elem_of_app. right. left.
    - intros H. repeat (apply elem_of_cons in H as [H|H]; [done|]).
      by apply elem_of_nil in H. }
  cbn zeta.
  repeat (match goal with |- context [if ?b then _ else _] => destruct b end);
    try (by apply Hst); by intros [?| ->]%add_library_elem; [apply Hst|].
Qed.

(** Every library root the embedded discoverer returns lies below
    [.pio]. *)
Lemma discovered_arduino_below_pio fs project_dir lib :
  lib ∈ _discover_libraries_arduino fs project_dir →
  ".pio" ∈ FS.resolve fs lib.
Proof.
  unfold _discover_libraries_arduino.
  set (pp := FS.resolve fs (PurePath.of_string project_dir)).
  destruct (negb _ || negb _); [by intros ?%elem_of_nil|].
  apply (foldl_libraries_inv (λ x, ".pio" ∈ FS.resolve fs x));
    [|by intros x ?%elem_of_nil].
  intros st env (e1 & He1 & Hn1%valid_name_not_dotdot)%iterdir_elem Hst.
  cbn zeta. destruct (negb (FS.is_dir fs env.1)); [done|].
  apply (foldl_libraries_inv (λ x, ".pio" ∈ FS.resolve fs x)); [|done].
  intros st' child (e2 & He2 & Hn2%valid_name_not_dotdot)%iterdir_elem Hst' x.
  cbn zeta. destruct (negb (FS.is_dir fs child.1)); [by apply Hst'|].
  intros [?| ->]%add_library_elem; [by apply Hst'|].
  rewrite resolve_idem, He2, He1, <- !app_assoc. unfold pp.
  rewrite resolve_below.
  - apply elem_of_app. right. left.
  - intros H. repeat (apply elem_of_cons in H as [H|H]; [done|]).
    by apply elem_of_nil in H.
Qed.

Lemma default_excluded ef ed x :
  x ∈ DEFAULT_EXCLUDE_DIRS → x ∈ exclude_dir_set ef ed.
Proof.
  intros H. unfold exclude_dir_set.
  destruct (truthy ed), (truthy ef); rewrite ?elem_of_union; auto.
Qed.

(** The walk of a library root below a default exclude name returns
    nothing, unless an entry of [include_folders] is absolute. *)
Lemma library_walk_nil fs lib nm exts inc ef ed :
  nm ∈ DEFAULT_EXCLUDE_DIRS → nm ∈ FS.resolve fs lib →
  (∀ f, f ∈ default [] inc → os_path_isabs f = false) →
  _walk_for_files fs lib exts inc (exclude_dir_set ef ed) None = [].
Proof.
  intros Hd Hin Hrel. unfold _walk_for_files.
  rewrite walk_paths_starts_excluded; [done|].
  intros start [k ->]%roots_below_root; [|done].
  apply has_excluded_part_app, has_excluded_part_true.
  exists nm. split; [done|]. by apply default_excluded.
Qed.

Lemma foldl_union_nil {A} (f : A → list string) (l : list A) (acc : gset string) :
  (∀ a, a ∈ l → f a = []) →
  foldl (λ (acc : gset string) a, acc ∪ list_to_set (f a)) acc l = acc.
Proof.
  revert acc. induction l as [|a l IH]; intros acc H; [done|].
  cbn [foldl]. rewrite H by left. cbn. rewrite union_empty_r_L.
  apply IH. intros b Hb. apply H. by right.
Qed.

End libraries.

(** The defect behind C2 and C3, in general.  Every discovered library
    root lies below [build] (desktop) or [.pio] (embedded), both always in
    the exclude-name set, so each library walk is pruned at its root:
    unless [include_folders] has an absolute entry, scanning the libraries
    adds nothing to the result of either collector. *)
Theorem libraries_contribute_nothing (fs : filesystem) (project_dir : string)
    (file_extensions include_folders exclude_folders exclude_dirs
       : option (list string)) :
  (∀ f, f ∈ default [] include_folders → os_path_isabs f = false) →
  get_all_files_desktop fs project_dir file_extensions include_folders
    exclude_folders exclude_dirs true =
  get_all_files_desktop fs project_dir file_extensions include_folders
    exclude_folders exclude_dirs false ∧
  get_all_files_arduino fs project_dir file_extensions include_folders
    exclude_folders exclude_dirs true =
  get_all_files_arduino fs project_dir file_extensions include_folders
    exclude_folders exclude_dirs false.
Proof.
  intros Hrel. unfold get_all_files_desktop, get_all_files_arduino, collect.
  cbn zeta. split; rewrite foldl_union_nil; try done.
  - intros lib Hlib%discovered_desktop_below_build.
    by apply (library_walk_nil _ _ "build"); [set_solver| |].
  - intros lib Hlib%discovered_arduino_below_pio.
    by apply (library_walk_nil _ _ ".pio"); [set_solver| |].
Qed.

(** Witness: on the example project, with [include_folders] restricted to
    [src] and [include], asking for the libraries changes nothing. *)
Lemma libraries_contribute_nothing_witness :
  get_all_files_desktop project_fs "/proj" None (Some ["src"; "include"])
    None None true =
  get_all_files_desktop project_fs "/proj" None (Some ["src"; "include"])
    None None false ∧
  get_all_files_arduino project_fs "/proj" None (Some ["src"; "include"])
    None None true =
  get_all_files_arduino project_fs "/proj" None (Some ["src"; "include"])
    None None false.
Proof.
  apply (libraries_contribute_nothing project_fs "/proj" None
           (Some ["src"; "include"]) None None).
  intros f Hf. cbn in Hf.
  apply elem_of_cons in Hf as [->|Hf]; [reflexivity|].
  apply elem_of_cons in Hf as [->|Hf]; [reflexivity|].
  by apply elem_of_nil in Hf.
Defined.

(** ** The normaliser applied to its own result *)

Section renormalise.

Lemma normalize_one_id e :
  Str.no_upper e = true → Str.startswith e "." = true → normalize_one e = e.
Proof.
  intros H1 H2. unfold normalize_one. cbn zeta. rewrite lower_id by done.
  by rewrite H2.
Qed.

Lemma normalize_one_idem e : normalize_one (normalize_one e) = normalize_one e.
Proof.
  apply normalize_one_id; [apply normalize_one_no_upper|apply normalize_one_dot].
Qed.

Lemma truthy_elements (X : gset string) :
  X ≠ ∅ → truthy (Some (elements X)) = true.
Proof.
  intros H. destruct (elements X) eqn:E; [|done].
  by apply elements_empty_inv, leibniz_equiv in E.
Qed.

End renormalise.

(** [_normalize_extensions] gives a canonical form.  Normalising the
    members of a normalised set gives that set again, and a list of
    extensions may be replaced by the canonical spelling of its entries:
    [["H"; ".Cpp"]] and [[".h"; ".cpp"]] select the same files. *)
Theorem normalize_extensions_idempotent (extensions : option (list string))
    (l : list string) :
  _normalize_extensions (Some (elements (_normalize_extensions extensions)))
    = _normalize_extensions extensions ∧
  _normalize_extensions (Some (map normalize_one l))
    = _normalize_extensions (Some l).
Proof.
  split.
  - unfold _normalize_extensions at 1.
    rewrite truthy_elements by apply normalize_nonempty.
    cbn [negb from_option id]. apply set_eq. intros x.
    rewrite elem_of_foldl_add. split.
    + intros [H|(e & He & ->)]; [by apply elem_of_empty in H|].
      apply elem_of_elements in He.
      destruct (normalize_elem _ _ He). by rewrite normalize_one_id.
    + intros Hx. right. exists x. split; [by apply elem_of_elements|].
      destruct (normalize_elem _ _ Hx). by rewrite normalize_one_id.
  - destruct l as [|a l]; [done|].
    unfold _normalize_extensions. cbn [map truthy negb from_option id].
    apply set_eq. intros x. rewrite !elem_of_foldl_add. split.
    + intros [H|(e & He & ->)]; [by left|]. right.
      change (normalize_one a :: map normalize_one l)
        with (normalize_one <$> (a :: l)) in He.
      apply list_elem_of_fmap in He as (e' & -> & He').
      exists e'. by rewrite normalize_one_idem.
    + intros [H|(e & He & ->)]; [by left|]. right.
      exists (normalize_one e). split; [|by rewrite normalize_one_idem].
      change (normalize_one a :: map normalize_one l)
        with (normalize_one <$> (a :: l)).
      apply list_elem_of_fmap. by exists e.
Qed.

(** ** Lookup below a directory *)

Section descent.

Implicit Types (fs : filesystem) (p d : Path) (ns : list string) (n c : node).

Lemma entry_elem es nm n : FS.entry es nm = Some n → (nm, n) ∈ es.
Proof.
  induction es as [|[k c] es IH]; [done|]. cbn [FS.entry].
  destruct (decide (k = nm)) as [->|].
  - intros [= ->]. left.
  - intros H. right. by apply IH.
Qed.

Lemma lookup_from_descend ns : ∀ anc cur,
  ".." ∉ ns → FS.lookup_from anc cur ns = descend cur ns.
Proof.
  induction ns as [|s ns IH]; intros anc cur H; [done|].
  apply not_elem_of_cons in H as [Hs Hns]. cbn [FS.lookup_from descend].
  destruct cur as [| |es]; [done|done|].
  destruct (decide (s = "..")) as [->|_]; [done|].
  destruct (FS.entry es s); [by apply IH|done].
Qed.

Lemma lookup_from_app segs ns : ∀ anc cur,
  ".." ∉ ns →
  FS.lookup_from anc cur (segs ++ ns) =
    match FS.lookup_from anc cur segs with
    | Some c => descend c ns
    | None => None
    end.
Proof.
  induction segs as [|s segs IH]; intros anc cur H.
  { by apply lookup_from_descend. }
  cbn [app FS.lookup_from]. destruct cur as [| |es]; [done|done|].
  destruct (decide (s = "..")).
  - destruct anc; by apply IH.
  - destruct (FS.entry es s); [by apply IH|done].
Qed.

Lemma lookup_app fs p ns :
  PurePath.is_absolute p = true → ".." ∉ ns →
  FS.lookup fs (p ++ ns) =
    match FS.lookup fs p with
    | Some c => descend c ns
    | None => None
    end.
Proof.
  intros Hp Hns. unfold FS.lookup, FS.absolute.
  rewrite (is_absolute_app _ ns Hp), Hp.
  destruct p as [|r segs]; [done|]. cbn [app].
  destruct (PurePath.is_root r); [|done]. by apply lookup_from_app.
Qed.

(** A child that is not [".."] is found exactly when it is an entry of
    the directory above. *)
Lemma lookup_snoc fs p nm n :
  PurePath.is_absolute p = true → nm ≠ ".." →
  FS.lookup fs (p ++ [nm]) = Some n ↔
  ∃ es, FS.lookup fs p = Some (Dir es) ∧ FS.entry es nm = Some n.
Proof.
  intros Hp Hnm. rewrite lookup_app; [|done|].
  2:{ intros H%list_elem_of_singleton. by apply Hnm. }
  destruct (FS.lookup fs p) as [[| |es]|]; cbn [descend].
  - split; [done|]. by intros (es & [=] & _).
  - split; [done|]. by intros (es & [=] & _).
  - destruct (FS.entry es nm) as [c|] eqn:E.
    + split; [intros [= ->]; by exists es|]. intros (es' & [= <-] & H).
      by rewrite E in H.
    + split; [done|]. intros (es' & [= <-] & H). by rewrite E in H.
  - split; [done|]. by intros (es & [=] & _).
Qed.

Lemma resolve_app fs d ns :
  PurePath.is_absolute d = true → ".." ∉ ns →
  FS.resolve fs (d ++ ns) = FS.resolve fs d ++ ns.
Proof.
  intros Hd Hns. unfold FS.resolve, FS.absolute.
  rewrite (is_absolute_app _ ns Hd), Hd. unfold FS.normalise.
  rewrite fold_left_app. by apply fold_norm_plain.
Qed.

Lemma has_excluded_part_prefix d ns (k : list string) (excl : gset string) :
  k `prefix_of` ns →
  _path_has_excluded_part (d ++ ns) excl = false →
  _path_has_excluded_part (d ++ k) excl = false.
Proof.
  intros [k' ->]. rewrite !has_excluded_part_false. intros H x Hx.
  apply H. rewrite app_assoc. apply elem_of_app. by left.
Qed.

Lemma under_any_prefix fs d ns (k : list string) (cex : gset Path) :
  PurePath.is_absolute d = true → ".." ∉ ns → k `prefix_of` ns →
  _path_under_any fs (d ++ ns) cex = false →
  _path_under_any fs (d ++ k) cex = false.
Proof.
  intros Hd Hns [k' ->]. rewrite !under_any_false. intros H ex Hex Hp.
  apply (H ex Hex). rewrite app_assoc, resolve_app.
  - by apply prefix_app_r.
  - by apply is_absolute_app.
  - intros Hk. apply Hns, elem_of_app. by right.
Qed.

End descent.

(** ** Every matching entry is collected *)

Section completeness.

Context (fs : filesystem) (file_extensions exclude_dirs : gset string).
Context (cex : gset Path).

(** A directory reached from the start of a walk through directories none
    of which is pruned is visited, and the walk collects there every entry
    that passes the filter. *)
Lemma walk_body_complete ns : ∀ n d0 es,
  descend n ns = Some (Dir es) →
  (∀ k, k `prefix_of` ns →
        _path_has_excluded_part (d0 ++ k) exclude_dirs = false ∧
        _path_under_any fs (d0 ++ k) cex = false) →
  (d0 ++ ns, collect_files file_extensions (d0 ++ ns) es)
    ∈ walk_body fs file_extensions exclude_dirs cex d0 n.
Proof.
  induction ns as [|nm ns IH]; intros n d0 es Hd Hp.
  - cbn in Hd. injection Hd as ->. destruct (Hp [] (prefix_nil _)) as [H1 H2].
    rewrite app_nil_r in *. cbn [walk_body]. rewrite H1, H2, andb_false_r. left.
  - destruct n as [| |es0]; [done|done|]. cbn [descend] in Hd.
    destruct (FS.entry es0 nm) as [c|] eqn:E; [|done].
    destruct c as [|t|es1]; [by destruct ns|by destruct ns|].
    destruct (Hp [] (prefix_nil _)) as [H1 H2]. rewrite app_nil_r in *.
    cbn [walk_body]. rewrite H1, H2, andb_false_r. right.
    apply elem_of_flat_map. exists (nm, Dir es1).
    split; [by apply entry_elem|]. cbn [fst snd].
    assert (nm ∉ exclude_dirs) as Hnm.
    { destruct (Hp [nm]) as [H _]; [by apply prefix_cons, prefix_nil|].
      rewrite has_excluded_part_false in H. apply H, elem_of_app. right. left. }
    rewrite (bool_decide_eq_false_2 _ Hnm).
    rewrite (cons_middle nm d0 ns), app_assoc. apply IH; [done|].
    intros k Hk. rewrite <- app_assoc. apply (Hp (nm :: k)).
    by apply prefix_cons.
Qed.

Lemma os_walk_complete start ns es :
  PurePath.is_absolute start = true → ".." ∉ ns →
  FS.lookup fs (start ++ ns) = Some (Dir es) →
  _path_has_excluded_part (start ++ ns) exclude_dirs = false →
  _path_under_any fs (start ++ ns) cex = false →
  (start ++ ns, collect_files file_extensions (start ++ ns) es)
    ∈ os_walk fs file_extensions exclude_dirs cex start.
Proof.
  intros Habs Hns Hl H1 H2. rewrite lookup_app in Hl by done.
  unfold os_walk. destruct (FS.lookup fs start) as [n|]; [|done].
  apply walk_body_complete; [done|]. intros k Hk. split.
  - by apply (has_excluded_part_prefix _ ns).
  - by apply (under_any_prefix _ _ ns).
Qed.

End completeness.

Lemma walk_trace_complete fs root_path exts inc excl eps start ns es :
  FS.is_dir fs (FS.resolve fs root_path) = true →
  start ∈ roots_to_walk fs (FS.resolve fs root_path) inc →
  ".." ∉ ns →
  FS.lookup fs (start ++ ns) = Some (Dir es) →
  _path_has_excluded_part (start ++ ns) excl = false →
  _path_under_any fs (start ++ ns) (combined fs eps) = false →
  (start ++ ns, collect_files exts (start ++ ns) es)
    ∈ walk_trace fs root_path exts inc excl eps.
Proof.
  intros Hdir Hstart Hns Hl H1 H2. rewrite walk_trace_present by done.
  apply elem_of_flat_map. exists start. split; [done|].
  apply os_walk_complete; try done.
  eapply roots_to_walk_abs; [apply resolve_abs|done].
Qed.

Lemma walk_paths_complete fs root_path exts inc excl eps start ns es e :
  FS.is_dir fs (FS.resolve fs root_path) = true →
  start ∈ roots_to_walk fs (FS.resolve fs root_path) inc →
  ".." ∉ ns →
  FS.lookup fs (start ++ ns) = Some (Dir es) →
  _path_has_excluded_part (start ++ ns) excl = false →
  _path_under_any fs (start ++ ns) (combined fs eps) = false →
  e ∈ es → passes_filter exts (start ++ ns) e = true →
  FS.resolve_entry fs ((start ++ ns) ++ [e.1]) e.2
    ∈ walk_paths fs root_path exts inc excl eps.
Proof.
  intros Hdir Hstart Hns Hl H1 H2 He Hf. unfold walk_paths.
  apply resolved_paths_elem.
  exists (start ++ ns), (collect_files exts (start ++ ns) es), e.
  split; [by apply walk_trace_complete|]. split; [|done].
  unfold collect_files. apply list_elem_of_filter. by split; [apply Is_true_true|].
Qed.

(** Completeness of the walker.  Take a directory below a start of the
    walk, reached without [".."], that exists, has no segment in the
    exclude-name set and lies under no exclude path.  The walk visits it,
    and every entry of it that is not a directory and whose suffix is in
    the extension set has its resolved path in the returned list. *)
Theorem walk_returns_every_match (fs : filesystem) (root_path : Path)
    (file_extensions : gset string) (include_folders : option (list string))
    (exclude_dirs : gset string) (exclude_paths : option (gset Path))
    (start : Path) (ns : list string) (es : list (string * node))
    (e : string * node) :
  FS.is_dir fs (FS.resolve fs root_path) = true →
  start ∈ roots_to_walk fs (FS.resolve fs root_path) include_folders →
  ".." ∉ ns →
  FS.lookup fs (start ++ ns) = Some (Dir es) →
  _path_has_excluded_part (start ++ ns) exclude_dirs = false →
  _path_under_any fs (start ++ ns) (combined fs exclude_paths) = false →
  e ∈ es → (∀ es', e.2 ≠ Dir es') →
  Str.lower (PurePath.suffix ((start ++ ns) ++ [e.1])) ∈ file_extensions →
  (start ++ ns, collect_files file_extensions (start ++ ns) es)
    ∈ walk_trace fs root_path file_extensions include_folders exclude_dirs
        exclude_paths ∧
  PurePath.to_string (FS.resolve_entry fs ((start ++ ns) ++ [e.1]) e.2)
    ∈ _walk_for_files fs root_path file_extensions include_folders
        exclude_dirs exclude_paths.
Proof.
  intros Hdir Hstart Hns Hl H1 H2 He Hnd Hsuf.
  split; [by apply walk_trace_complete|].
  apply walk_for_files_elem. eexists. split; [|done].
  apply (walk_paths_complete _ _ _ _ _ _ start ns es e); try done.
  by apply passes_filter_spec.
Qed.

(** Witness: the walk of the example project returns [src/main.cpp]. *)
Lemma walk_returns_every_match_witness :
  (["/"; "proj"; "src"],
   collect_files {[ ".cpp" ]} ["/"; "proj"; "src"] [("main.cpp", File)])
    ∈ walk_trace project_fs ["/"; "proj"] {[ ".cpp" ]} None
        DEFAULT_EXCLUDE_DIRS None ∧
  "/proj/src/main.cpp"
    ∈ _walk_for_files project_fs ["/"; "proj"] {[ ".cpp" ]} None
        DEFAULT_EXCLUDE_DIRS None.
Proof.
  apply (walk_returns_every_match project_fs ["/"; "proj"] {[ ".cpp" ]} None
           DEFAULT_EXCLUDE_DIRS None ["/"; "proj"] ["src"]
           [("main.cpp", File)] ("main.cpp", File)).
  - reflexivity.
  - left.
  - by_evaluation.
  - reflexivity.
  - reflexivity.
  - reflexivity.
  - left.
  - done.
  - by_evaluation.
Defined.

(** ** Include folders *)

(** C6. With a non-empty [include_folders], each entry stands for the path
    below the resolved root, or for itself when it is absolute.  When one
    of them is an existing directory, only those are walked: every visited
    directory lies at or below one of them, every returned path comes from
    an entry collected in such a directory, and each of them is walked in
    full: every directory below it that is not pruned is visited, and
    every entry there that is not a directory and has a suffix in the
    extension set is returned.  When none of them is an existing directory
    the call visits and returns what the call without [include_folders]
    does, and the root is walked in full. *)
Theorem include_folders_restrict_or_fallback (fs : filesystem)
    (root_path : Path) (file_extensions : gset string)
    (folders : list string) (exclude_dirs : gset string)
    (exclude_paths : option (gset Path)) :
  folders ≠ [] →
  let r := FS.resolve fs root_path in
  let sub (f : string) : Path :=
    if os_path_isabs f then PurePath.of_string f
    else r ++ PurePath.of_string f in
  let walk inc :=
    _walk_for_files fs root_path file_extensions inc exclude_dirs
      exclude_paths in
  let trace inc :=
    walk_trace fs root_path file_extensions inc exclude_dirs exclude_paths in
  let walked_in_full (start : Path) :=
    ∀ (ns : list string) (es : list (string * node)) (e : string * node),
      ".." ∉ ns →
      FS.lookup fs (start ++ ns) = Some (Dir es) →
      _path_has_excluded_part (start ++ ns) exclude_dirs = false →
      _path_under_any fs (start ++ ns) (combined fs exclude_paths) = false →
      e ∈ es → (∀ es', e.2 ≠ Dir es') →
      Str.lower (PurePath.suffix ((start ++ ns) ++ [e.1])) ∈ file_extensions →
      (start ++ ns, collect_files file_extensions (start ++ ns) es)
        ∈ trace (Some folders) ∧
      PurePath.to_string (FS.resolve_entry fs ((start ++ ns) ++ [e.1]) e.2)
        ∈ walk (Some folders) in
  ((∃ f, f ∈ folders ∧ FS.is_dir fs (sub f) = true) →
     (∀ d es, (d, es) ∈ trace (Some folders) →
        ∃ f, f ∈ folders ∧ FS.is_dir fs (sub f) = true ∧
             sub f `prefix_of` d) ∧
     (∀ s, s ∈ walk (Some folders) →
        ∃ d es nm n,
          (d, es) ∈ trace (Some folders) ∧ (nm, n) ∈ es ∧
          s = PurePath.to_string (FS.resolve_entry fs (d ++ [nm]) n)) ∧
     (FS.is_dir fs r = true →
      ∀ f, f ∈ folders → FS.is_dir fs (sub f) = true →
           walked_in_full (sub f))) ∧
  ((∀ f, f ∈ folders → FS.is_dir fs (sub f) = false) →
     trace (Some folders) = trace None ∧
     walk (Some folders) = walk None ∧
     (FS.is_dir fs r = true → walked_in_full r)).
Proof.
  intros Hne r sub walk trace walked_in_full.
  assert (∀ f, sub f = include_sub r f) as Hsub
    by (intros f; symmetry; apply include_sub_spec).
  assert (∀ start, FS.is_dir fs r = true →
            start ∈ roots_to_walk fs r (Some folders) →
            walked_in_full start) as Hfull.
  { intros start Hr Hstart ns es e Hns Hl H1 H2 He Hnd Hsuf.
    split; [by apply walk_trace_complete|].
    apply walk_for_files_elem. eexists. split; [|done].
    apply (walk_paths_complete _ _ _ _ _ _ start ns es e); try done.
    by apply passes_filter_spec. }
  split.
  - intros (f0 & Hf0 & Hd0).
    assert (named_subs fs r folders ≠ []) as Hsome.
    { intros E.
      assert (sub f0 ∈ named_subs fs r folders) as Hin
        by (apply named_subs_elem; exists f0; by rewrite <- Hsub).
      rewrite E in Hin. by apply elem_of_nil in Hin. }
    split; [|split].
    + intros d es (start & Hs & Hp & _)%walk_trace_inv. fold r in Hs.
      rewrite roots_to_walk_spec in Hs. cbn [from_option id] in Hs.
      destruct (named_subs fs r folders) as [|a l] eqn:E; [done|].
      rewrite <- E in Hs. apply named_subs_elem in Hs as (f & Hf & -> & Hd).
      exists f. by rewrite Hsub.
    + intros s (p & Hp & ->)%walk_for_files_elem.
      apply resolved_paths_elem in Hp as (d & es & [nm n] & Hin & He & ->).
      by exists d, es, nm, n.
    + intros Hr f Hf Hd. apply Hfull; [done|].
      rewrite roots_to_walk_spec. cbn [from_option id].
      assert (sub f ∈ named_subs fs r folders) as Hin
        by (apply named_subs_elem; exists f; by rewrite <- Hsub).
      by destruct (named_subs fs r folders).
  - intros Hnone.
    assert (named_subs fs r folders = []) as E.
    { destruct (named_subs fs r folders) as [|a l] eqn:E; [done|].
      assert (a ∈ named_subs fs r folders) as Hin by (rewrite E; left).
      apply named_subs_elem in Hin as (f & Hf & -> & Hd).
      rewrite <- Hsub, (Hnone f Hf) in Hd. done. }
    assert (roots_to_walk fs r (Some folders) = [r]) as Hroots
      by (rewrite roots_to_walk_spec; cbn [from_option id]; by rewrite E).
    assert (trace (Some folders) = trace None) as Htrace.
    { unfold trace, walk_trace. cbn zeta. fold r. by rewrite Hroots. }
    split; [done|]. split.
    + unfold walk, _walk_for_files, walk_paths. fold (trace (Some folders)).
      fold (trace None). by rewrite Htrace.
    + intros Hr. apply Hfull; [done|]. rewrite Hroots. left.
Qed.

(** Witness of C6: of [src] and [nosuch] only [/proj/src] exists, so only
    directories at or below it are visited and [src/main.cpp] is returned;
    [/proj] has no child [nosuch], so the walk restricted to it is the walk
    of all of [/proj] and returns [include/foo.h]. *)
Lemma include_folders_restrict_or_fallback_witness :
  (∀ d es,
     (d, es) ∈ walk_trace project_fs ["/"; "proj"] {[ ".h"; ".cpp" ]}
                 (Some ["src"; "nosuch"]) DEFAULT_EXCLUDE_DIRS None →
     ["/"; "proj"; "src"] `prefix_of` d) ∧
  "/proj/src/main.cpp"
    ∈ _walk_for_files project_fs ["/"; "proj"] {[ ".h"; ".cpp" ]}
        (Some ["src"; "nosuch"]) DEFAULT_EXCLUDE_DIRS None ∧
  _walk_for_files project_fs ["/"; "proj"] {[ ".h"; ".cpp" ]} (Some ["nosuch"])
    DEFAULT_EXCLUDE_DIRS None =
  _walk_for_files project_fs ["/"; "proj"] {[ ".h"; ".cpp" ]} None
    DEFAULT_EXCLUDE_DIRS None ∧
  "/proj/include/foo.h"
    ∈ _walk_for_files project_fs ["/"; "proj"] {[ ".h"; ".cpp" ]}
        (Some ["nosuch"]) DEFAULT_EXCLUDE_DIRS None.
Proof.
  destruct (include_folders_restrict_or_fallback project_fs ["/"; "proj"]
              {[ ".h"; ".cpp" ]} ["src"; "nosuch"] DEFAULT_EXCLUDE_DIRS None)
    as [Hsome _]; [done|].
  destruct Hsome as (Hvisit & _ & Hfull).
  { exists "src". split; [left|reflexivity]. }
  destruct (include_folders_restrict_or_fallback project_fs ["/"; "proj"]
              {[ ".h"; ".cpp" ]} ["nosuch"] DEFAULT_EXCLUDE_DIRS None)
    as [_ Hnone]; [done|].
  destruct Hnone as (_ & Hwalk & Hroot).
  { intros f Hf. apply list_elem_of_singleton in Hf as ->. reflexivity. }
  split; [|split; [|split; [exact Hwalk|]]].
  - intros d es Hin. destruct (Hvisit d es Hin) as (f & Hf & Hd & Hp).
    apply elem_of_cons in Hf as [->|Hf]; [exact Hp|].
    apply elem_of_cons in Hf as [->|Hf]; [|by apply elem_of_nil in Hf].
    vm_compute in Hd. discriminate.
  - refine (proj2 (Hfull eq_refl "src" _ eq_refl [] [("main.cpp", File)]
                     ("main.cpp", File) _ eq_refl eq_refl eq_refl _ _ _)).
    + left.
    + by intros ?%elem_of_nil.
    + left.
    + done.
    + by_evaluation.
  - refine (proj2 (Hroot eq_refl ["include"] [("foo.h", File)]
                     ("foo.h", File) _ eq_refl eq_refl eq_refl _ _ _)).
    + by_evaluation.
    + left.
    + done.
    + by_evaluation.
Defined.

(** ** Every matching file of the project is returned *)

(** The exclude paths of a collector are resolved already, so the walker
    tests against them as they are. *)
Lemma combined_exclude_path_set fs project_path exclude_folders :
  let eps := exclude_path_set fs project_path exclude_folders in
  combined fs (if decide (eps = ∅) then None else Some eps) = eps.
Proof.
  cbn zeta. set (eps := exclude_path_set _ _ _). unfold combined.
  destruct (decide (eps = ∅)) as [E|E]; [done|].
  rewrite decide_False by done. apply set_eq. intros x. rewrite elem_of_map.
  split.
  - intros (y & -> & Hy). by rewrite (exclude_path_resolved _ _ _ _ Hy).
  - intros Hx. exists x. split; [|done]. symmetry.
    by eapply exclude_path_resolved.
Qed.

Lemma collect_complete fs libraries project_dir file_extensions include_folders
    exclude_folders exclude_dirs include_libraries start ns es e :
  let project_path := FS.resolve fs (PurePath.of_string project_dir) in
  FS.is_dir fs project_path = true →
  start ∈ roots_to_walk fs project_path include_folders →
  ".." ∉ ns →
  FS.lookup fs (start ++ ns) = Some (Dir es) →
  (∀ seg, seg ∈ start ++ ns →
          seg ∉ exclude_dir_set exclude_folders exclude_dirs) →
  (∀ ex, ex ∈ exclude_path_set fs project_path exclude_folders →
         ¬ ex `prefix_of` FS.resolve fs (start ++ ns)) →
  e ∈ es → (∀ es', e.2 ≠ Dir es') →
  Str.lower (PurePath.suffix ((start ++ ns) ++ [e.1]))
    ∈ _normalize_extensions file_extensions →
  PurePath.to_string (FS.resolve_entry fs ((start ++ ns) ++ [e.1]) e.2)
    ∈ collect fs libraries project_dir file_extensions include_folders
        exclude_folders exclude_dirs include_libraries.
Proof.
  cbn zeta. intros Hdir Hstart Hns Hl Hseg Hex He Hnd Hsuf.
  apply collect_elem. eexists. split; [|done].
  unfold collected_paths. cbn zeta. apply elem_of_app. left.
  apply (walk_paths_complete _ _ _ _ _ _ start ns es e); try done.
  - by rewrite resolve_idem.
  - by rewrite resolve_idem.
  - by apply has_excluded_part_false.
  - rewrite combined_exclude_path_set. by apply under_any_false.
  - by apply passes_filter_spec.
Qed.

(** Completeness of the collectors, the converse of their invariant, for
    file trees in which no symbolic link points to a directory and for
    paths written with the root ["/"] (not ["//"]), the project directory
    and the exclude folders without [".."].  In a project directory that
    exists, take a directory below a start of the project walk (the project
    directory itself when no include folder is given), reached through
    directories and without [".."], no segment of whose path is in the
    effective exclude-name set and which lies under no exclude folder.
    Every entry of it that is not a directory and whose suffix is in the
    normalised extension set is returned, by its resolved path, by both
    collectors. *)
Theorem collectors_return_every_match (fs : filesystem) (project_dir : string)
    (file_extensions include_folders exclude_folders exclude_dirs
       : option (list string))
    (include_libraries : bool)
    (start : Path) (ns : list string) (es : list (string * node))
    (e : string * node) :
  let project_path := FS.resolve fs (PurePath.of_string project_dir) in
  no_dir_links fs = true →
  (".." ∉ PurePath.of_string project_dir) →
  head project_path = Some "/" →
  (∀ f, f ∈ default [] exclude_folders →
        PurePath.root_of f ≠ ["//"] ∧ ".." ∉ PurePath.of_string f) →
  FS.is_dir fs project_path = true →
  start ∈ roots_to_walk fs project_path include_folders →
  head start = Some "/" →
  ".." ∉ ns →
  FS.lookup fs (start ++ ns) = Some (Dir es) →
  (∀ seg, seg ∈ start ++ ns →
          seg ∉ exclude_dir_set exclude_folders exclude_dirs) →
  (∀ ex, ex ∈ exclude_path_set fs project_path exclude_folders →
         ¬ ex `prefix_of` FS.resolve fs (start ++ ns)) →
  e ∈ es → (∀ es', e.2 ≠ Dir es') →
  Str.lower (PurePath.suffix ((start ++ ns) ++ [e.1]))
    ∈ _normalize_extensions file_extensions →
  let s :=
    PurePath.to_string (FS.resolve_entry fs ((start ++ ns) ++ [e.1]) e.2) in
  s ∈ get_all_files_desktop fs project_dir file_extensions include_folders
        exclude_folders exclude_dirs include_libraries ∧
  s ∈ get_all_files_arduino fs project_dir file_extensions include_folders
        exclude_folders exclude_dirs include_libraries.
Proof.
  cbn zeta. intros _ _ _ _ Hdir Hstart _. intros.
  unfold get_all_files_desktop, get_all_files_arduino.
  split; by apply (collect_complete _ _ _ _ _ _ _ _ start ns es e).
Qed.

(** Witness: with [other/gen] excluded and only headers asked for, the
    collectors return [include/foo.h] of the example project. *)
Lemma collectors_return_every_match_witness :
  "/proj/include/foo.h"
    ∈ get_all_files_desktop project_fs "/proj" (Some ["H"]) None
        (Some ["other/gen"]) None true ∧
  "/proj/include/foo.h"
    ∈ get_all_files_arduino project_fs "/proj" (Some ["H"]) None
        (Some ["other/gen"]) None true.
Proof.
  apply (collectors_return_every_match project_fs "/proj" (Some ["H"]) None
           (Some ["other/gen"]) None true ["/"; "proj"] ["include"]
           [("foo.h", File)] ("foo.h", File)).
  - reflexivity.
  - by_evaluation.
  - reflexivity.
  - intros f Hf. apply list_elem_of_singleton in Hf as ->.
    split; [done|by_evaluation].
  - reflexivity.
  - left.
  - reflexivity.
  - by_evaluation.
  - reflexivity.
  - intros seg Hseg. revert seg Hseg. apply Forall_forall.
    repeat constructor; by_evaluation.
  - intros ex Hex. apply elem_of_list_to_set in Hex. revert ex Hex.
    apply Forall_forall. repeat constructor. by_evaluation.
  - left.
  - done.
  - by_evaluation.
Defined.

(** ** Exclude folders *)

Section exclude_folders.

Implicit Types (fs : filesystem) (f : string).

Lemma first_part_excluded ef ed f :
  f ∈ default [] ef → first_part f ∈ exclude_dir_set ef ed.
Proof.
  intros Hf. unfold exclude_dir_set. destruct ef as [[|a l]|];
    [by apply elem_of_nil in Hf| |by apply elem_of_nil in Hf].
  cbn [truthy from_option id] in *. apply elem_of_union. right.
  apply elem_of_list_to_set.
  change (map first_part (a :: l)) with (first_part <$> (a :: l)).
  apply list_elem_of_fmap. by exists f.
Qed.

(** When the project walk and every library walk return nothing, so does
    the collector. *)
Lemma collect_nil fs libraries project_dir file_extensions include_folders
    exclude_folders exclude_dirs include_libraries :
  let project_path := FS.resolve fs (PurePath.of_string project_dir) in
  let ext_set := _normalize_extensions file_extensions in
  let excl := exclude_dir_set exclude_folders exclude_dirs in
  (∀ eps, _walk_for_files fs project_path ext_set include_folders excl eps
          = []) →
  (∀ lib, lib ∈ libraries →
     _walk_for_files fs lib ext_set include_folders excl None = []) →
  collect fs libraries project_dir file_extensions include_folders
    exclude_folders exclude_dirs include_libraries = [].
Proof.
  cbn zeta. intros Hp Hl. unfold collect. cbn zeta. rewrite Hp.
  destruct include_libraries.
  - rewrite foldl_union_nil by done. cbn. by rewrite elements_empty.
  - cbn. by rewrite elements_empty.
Qed.

End exclude_folders.

(** An absolute exclude folder excludes everything.  The collectors put the
    first part of every exclude folder into the exclude-name set; for an
    absolute folder that part is the root ["/"], which is a segment of the
    path of every directory a walk visits.  With a project directory below
    ["/"] and no absolute include folder, both collectors then return the
    empty list. *)
Theorem absolute_exclude_folder_excludes_all (fs : filesystem)
    (project_dir : string)
    (file_extensions include_folders exclude_folders exclude_dirs
       : option (list string))
    (include_libraries : bool) (f : string) :
  f ∈ default [] exclude_folders →
  PurePath.root_of f = ["/"] →
  "/" ∈ FS.resolve fs (PurePath.of_string project_dir) →
  (∀ g, g ∈ default [] include_folders → os_path_isabs g = false) →
  get_all_files_desktop fs project_dir file_extensions include_folders
    exclude_folders exclude_dirs include_libraries = [] ∧
  get_all_files_arduino fs project_dir file_extensions include_folders
    exclude_folders exclude_dirs include_libraries = [].
Proof.
  intros Hf Hroot Hpp Hrel.
  assert ("/" ∈ exclude_dir_set exclude_folders exclude_dirs) as Hex.
  { replace "/" with (first_part f); [by apply first_part_excluded|].
    unfold first_part, PurePath.of_string. by rewrite Hroot. }
  assert (∀ eps,
    _walk_for_files fs (FS.resolve fs (PurePath.of_string project_dir))
      (_normalize_extensions file_extensions) include_folders
      (exclude_dir_set exclude_folders exclude_dirs) eps = []) as Hproj.
  { intros eps. unfold _walk_for_files.
    rewrite walk_paths_starts_excluded; [done|].
    intros start [k ->]%roots_below_root; [|done].
    apply has_excluded_part_app, has_excluded_part_true.
    exists "/". by rewrite resolve_idem. }
  unfold get_all_files_desktop, get_all_files_arduino.
  split; apply collect_nil; try done.
  - intros lib Hlib%discovered_desktop_below_build.
    by apply (library_walk_nil _ _ "build"); [set_solver| |].
  - intros lib Hlib%discovered_arduino_below_pio.
    by apply (library_walk_nil _ _ ".pio"); [set_solver| |].
Qed.

(** Witness: excluding [/proj/build/obj] by its absolute path empties the
    result for the example project. *)
Lemma absolute_exclude_folder_excludes_all_witness :
  get_all_files_desktop project_fs "/proj" None None
    (Some ["/proj/build/obj"]) None true = [] ∧
  get_all_files_arduino project_fs "/proj" None None
    (Some ["/proj/build/obj"]) None true = [].
Proof.
  apply (absolute_exclude_folder_excludes_all project_fs "/proj" None None
           (Some ["/proj/build/obj"]) None true "/proj/build/obj").
  - left.
  - reflexivity.
  - by_evaluation.
  - intros g Hg. by apply elem_of_nil in Hg.
Defined.

(** ** Exclude paths that the exclude names cover *)

Section subsumed.

Context (fs : filesystem) (file_extensions exclude_dirs : gset string).
Context (cex : gset Path).

(** Every exclude path has a segment that is an excluded name. *)
Hypothesis Hcov : ∀ ex, ex ∈ cex → ∃ x, x ∈ ex ∧ x ∈ exclude_dirs.

Lemma under_any_covered d :
  PurePath.is_absolute d = true →
  _path_has_excluded_part d exclude_dirs = false →
  _path_under_any fs d cex = false.
Proof.
  intros Habs Hex. apply under_any_false. intros ex Hin [k Hk].
  destruct (Hcov ex Hin) as (x & Hx & Hxe).
  rewrite has_excluded_part_false in Hex. apply (Hex x); [|done].
  apply (resolve_subset fs); [done|]. rewrite Hk. apply elem_of_app. by left.
Qed.

Lemma walk_body_covered n : ∀ d0,
  PurePath.is_absolute d0 = true →
  walk_body fs file_extensions exclude_dirs cex d0 n =
  walk_body fs file_extensions exclude_dirs ∅ d0 n.
Proof.
  induction n as [|t|es IH] using node_tree_ind; intros d0 Habs; [done|done|].
  cbn [walk_body].
  destruct (_path_has_excluded_part d0 exclude_dirs) eqn:Hex; [done|].
  rewrite under_any_covered, andb_false_r by done.
  rewrite (bool_decide_eq_false_2 (∅ ≠ ∅)) by (by intros H). cbn [andb].
  f_equal. induction IH as [|e es He Hes IHes]; [done|].
  cbn [flat_map]. f_equal; [|exact IHes].
  destruct e.2; [done|done|]. case_bool_decide; [done|].
  apply He. by apply is_absolute_app.
Qed.

Lemma os_walk_covered start :
  PurePath.is_absolute start = true →
  os_walk fs file_extensions exclude_dirs cex start =
  os_walk fs file_extensions exclude_dirs ∅ start.
Proof.
  intros Habs. unfold os_walk. destruct (FS.lookup fs start); [|done].
  by apply walk_body_covered.
Qed.

End subsumed.

Lemma flat_map_ext_elem {A B} (f g : A → list B) (l : list A) :
  (∀ x, x ∈ l → f x = g x) → flat_map f l = flat_map g l.
Proof.
  induction l as [|a l IH]; intros H; [done|]. cbn [flat_map].
  rewrite H by left. f_equal. apply IH. intros x Hx. apply H. by right.
Qed.

(** The exclude paths of a walk have no effect when each of them has a
    segment in the exclude-name set. *)
Lemma walk_for_files_covered fs root_path exts inc excl eps :
  (∀ ex, ex ∈ combined fs eps → ∃ x, x ∈ ex ∧ x ∈ excl) →
  _walk_for_files fs root_path exts inc excl eps =
  _walk_for_files fs root_path exts inc excl None.
Proof.
  intros Hcov. unfold _walk_for_files, walk_paths. do 3 f_equal.
  unfold walk_trace. cbn zeta.
  destruct (negb _ || negb _); [done|].
  apply flat_map_ext_elem. intros start Hs. cbn [combined].
  apply os_walk_covered; [done|].
  eapply roots_to_walk_abs; [apply resolve_abs|done].
Qed.

Section exclude_names.

Implicit Types (fs : filesystem) (f : string).

Lemma elem_of_exclude_dir_set ef ed x :
  x ∈ exclude_dir_set ef ed ↔
  x ∈ DEFAULT_EXCLUDE_DIRS ∨ x ∈ strip_name <$> default [] ed
  ∨ x ∈ first_part <$> default [] ef.
Proof.
  unfold exclude_dir_set.
  assert (∀ (l : option (list string)) (g : string → string) (s0 : gset string),
            x ∈ (if truthy l then s0 ∪ list_to_set (map g (default [] l)) else s0)
            ↔ x ∈ s0 ∨ x ∈ g <$> default [] l) as Hstep.
  { intros l g s0. destruct l as [[|a l]|]; cbn [truthy from_option id].
    - split; [by left|]. intros [?|Ha]; [done|]. by apply elem_of_nil in Ha.
    - by rewrite elem_of_union, elem_of_list_to_set.
    - split; [by left|]. intros [?|Ha]; [done|]. by apply elem_of_nil in Ha. }
  rewrite (Hstep ef first_part), (Hstep ed strip_name). tauto.
Qed.

(** The exclude path of a relative folder without [".."] is the project
    path followed by the parts of the folder. *)
Lemma exclude_path_of_relative fs x f :
  os_path_isabs f = false → ".." ∉ PurePath.of_string f →
  exclude_path_of fs (FS.resolve fs x) f = FS.resolve fs x ++ PurePath.of_string f.
Proof.
  intros Hrel Hdd. unfold exclude_path_of, PurePath.joinpath. rewrite Hrel.
  cbn zeta. rewrite (isabs_false_of_string _ Hrel). by apply resolve_below.
Qed.

End exclude_names.

(** A relative exclude folder acts through its first part alone, in a file
    tree in which no symbolic link points to a directory.  For exclude
    folders that are relative, have at least one part, hold no [".."] and
    do not begin with a dot, both collectors return what they return when
    the first parts of the folders are passed as exclude names instead:
    [exclude_folders=["src/gen"]] excludes every directory named [src], at
    any depth, and the path [src/gen] itself adds nothing. *)
Theorem relative_exclude_folders_act_by_name (fs : filesystem)
    (project_dir : string)
    (file_extensions include_folders : option (list string))
    (folders : list string) (exclude_dirs : option (list string))
    (include_libraries : bool) :
  no_dir_links fs = true →
  (∀ f, f ∈ folders →
        os_path_isabs f = false ∧ PurePath.of_string f ≠ [] ∧
        (".." ∉ PurePath.of_string f) ∧
        Str.startswith (first_part f) "." = false) →
  let names := Some (default [] exclude_dirs ++ map first_part folders) in
  get_all_files_desktop fs project_dir file_extensions include_folders
    (Some folders) exclude_dirs include_libraries =
  get_all_files_desktop fs project_dir file_extensions include_folders
    None names include_libraries ∧
  get_all_files_arduino fs project_dir file_extensions include_folders
    (Some folders) exclude_dirs include_libraries =
  get_all_files_arduino fs project_dir file_extensions include_folders
    None names include_libraries.
Proof.
  intros _ Hf. cbn zeta.
  set (pp := FS.resolve fs (PurePath.of_string project_dir)).
  assert (exclude_dir_set (Some folders) exclude_dirs =
          exclude_dir_set None
            (Some (default [] exclude_dirs ++ map first_part folders))) as Hnames.
  { apply set_eq. intros x. rewrite !elem_of_exclude_dir_set.
    cbn [from_option id]. rewrite fmap_app, elem_of_app.
    assert (strip_name <$> map first_part folders = first_part <$> folders) as ->.
    { change (map first_part folders) with (first_part <$> folders).
      rewrite <- list_fmap_compose. apply Forall_fmap_ext_1, Forall_forall.
      intros f Hin. destruct (Hf f Hin) as (_ & _ & _ & Hdot).
      cbn. unfold strip_name. by rewrite Hdot. }
    split.
    - intros [?|[?|?]]; [by left|right; left; by left|right; left; by right].
    - intros [?|[[?|?]|H]]; [by left|right; by left|right; by right|].
      by apply elem_of_nil in H. }
  assert (∀ ex, ex ∈ exclude_path_set fs pp (Some folders) →
                ∃ x, x ∈ ex ∧ x ∈ exclude_dir_set (Some folders) exclude_dirs)
    as Hcov.
  { intros ex. unfold exclude_path_set.
    destruct (truthy (Some folders)); [|by intros ?%elem_of_empty].
    cbn [from_option id]. rewrite elem_of_list_to_set.
    change (map (exclude_path_of fs pp) folders)
      with (exclude_path_of fs pp <$> folders).
    intros (f & -> & Hin)%list_elem_of_fmap.
    destruct (Hf f Hin) as (Hrel & Hne & Hdd & _).
    exists (first_part f). split; [|by apply first_part_excluded].
    unfold pp. rewrite exclude_path_of_relative by done.
    apply elem_of_app. right. unfold first_part.
    destruct (PurePath.of_string f); [done|left]. }
  assert (∀ libraries,
    collect fs libraries project_dir file_extensions include_folders
      (Some folders) exclude_dirs include_libraries =
    collect fs libraries project_dir file_extensions include_folders None
      (Some (default [] exclude_dirs ++ map first_part folders))
      include_libraries) as Hcollect.
  { intros libraries. unfold collect. cbn zeta. fold pp.
    rewrite <- Hnames.
    rewrite (walk_for_files_covered fs pp _ _ _
               (if decide (exclude_path_set fs pp (Some folders) = ∅)
                then None else Some (exclude_path_set fs pp (Some folders)))).
    - done.
    - by rewrite (combined_exclude_path_set fs pp (Some folders)). }
  unfold get_all_files_desktop, get_all_files_arduino. by rewrite !Hcollect.
Qed.

(** Witness: for the example project, excluding the folder [src/gen] is
    excluding the name [src]. *)
Lemma relative_exclude_folders_act_by_name_witness :
  get_all_files_desktop project_fs "/proj" None None (Some ["src/gen"])
    None true =
  get_all_files_desktop project_fs "/proj" None None None (Some ["src"])
    true ∧
  get_all_files_arduino project_fs "/proj" None None (Some ["src/gen"])
    None true =
  get_all_files_arduino project_fs "/proj" None None None (Some ["src"])
    true.
Proof.
  apply (relative_exclude_folders_act_by_name project_fs "/proj" None None
           ["src/gen"] None true); [reflexivity|].
  intros f Hf. apply list_elem_of_singleton in Hf as ->.
  split; [reflexivity|]. split; [done|]. split; [by_evaluation|reflexivity].
Defined.

(** ** Rendering of sibling paths *)

Section rendering.

Implicit Types (s t a b : string) (l ps : list string).

Lemma string_app_inj s a b : s +:+ a = s +:+ b → a = b.
Proof. induction s as [|c s IH]; [done|]. cbn. intros [= H]. by apply IH. Qed.

Lemma append_cons c s t : String c s +:+ t = String c (s +:+ t).
Proof. reflexivity. Qed.

Lemma append_empty s : "" +:+ s = s.
Proof. reflexivity. Qed.

Lemma no_slash_app_slash a s : Str.no_slash (a +:+ "/" +:+ s) = false.
Proof.
  induction a as [|c a IH]; [done|]. rewrite append_cons.
  cbn [Str.no_slash]. rewrite IH. apply andb_false_r.
Qed.

Lemma app_slash_inj a b s t :
  Str.no_slash a = true → Str.no_slash b = true →
  a +:+ "/" +:+ s = b +:+ "/" +:+ t → a = b ∧ s = t.
Proof.
  revert b. induction a as [|c a IH]; intros [|c' b];
    rewrite ?append_cons, ?append_empty; cbn [Str.no_slash].
  - by intros _ _ [= ->].
  - intros _ [Hc _]%andb_true_iff [= <- _].
    by rewrite bool_decide_eq_true_2 in Hc.
  - intros [Hc _]%andb_true_iff _ [= -> _].
    by rewrite bool_decide_eq_true_2 in Hc.
  - intros [_ Ha]%andb_true_iff [_ Hb]%andb_true_iff [= <- H].
    destruct (IH b Ha Hb H) as [-> ->]. done.
Qed.

Lemma valid_name_no_slash s : valid_name s = true → Str.no_slash s = true.
Proof. unfold valid_name. by intros [_ ?]%andb_true_iff. Qed.

Lemma valid_name_nonempty s : valid_name s = true → s ≠ "".
Proof. by intros H ->. Qed.

Lemma join_cons x l :
  l ≠ [] → Str.join "/" (x :: l) = x +:+ "/" +:+ Str.join "/" l.
Proof. by destruct l. Qed.

(** Lists of file names with the same rendering are the same list. *)
Lemma join_inj l : ∀ l',
  Forall (λ x, valid_name x = true) l → Forall (λ x, valid_name x = true) l' →
  l ≠ [] → l' ≠ [] →
  Str.join "/" l = Str.join "/" l' → l = l'.
Proof.
  induction l as [|x l IH]; intros [|y l'] Hl Hl' Hn Hn'; try done.
  apply Forall_cons in Hl as [Hx Hl]. apply Forall_cons in Hl' as [Hy Hl'].
  destruct l as [|x2 l], l' as [|y2 l'].
  - cbn. by intros ->.
  - rewrite (join_cons y) by done. cbn [Str.join]. intros ->.
    apply valid_name_no_slash in Hx. by rewrite no_slash_app_slash in Hx.
  - rewrite (join_cons x) by done. cbn [Str.join]. intros <-.
    apply valid_name_no_slash in Hy. by rewrite no_slash_app_slash in Hy.
  - rewrite (join_cons x), (join_cons y) by done.
    intros [-> H]%app_slash_inj; [|by apply valid_name_no_slash..].
    f_equal. by apply IH.
Qed.

Lemma join_app_inj ps l l' :
  Forall (λ x, valid_name x = true) l → Forall (λ x, valid_name x = true) l' →
  l ≠ [] → l' ≠ [] →
  Str.join "/" (ps ++ l) = Str.join "/" (ps ++ l') → l = l'.
Proof.
  intros Hl Hl' Hn Hn'. induction ps as [|x ps IH]; [by apply join_inj|].
  cbn [app]. rewrite !join_cons.
  - intros H%string_app_inj%string_app_inj. by apply IH.
  - by destruct ps, l'.
  - by destruct ps, l.
Qed.

(** Two paths below the same absolute directory, each continued by file
    names, are equal when they render alike. *)
Lemma to_string_below_inj (d : Path) l l' :
  PurePath.is_absolute d = true →
  Forall (λ x, valid_name x = true) l → Forall (λ x, valid_name x = true) l' →
  l ≠ [] → l' ≠ [] →
  PurePath.to_string (d ++ l) = PurePath.to_string (d ++ l') → l = l'.
Proof.
  intros Hd Hl Hl' Hn Hn'. destruct d as [|r ps]; [done|].
  cbn in Hd. cbn [app PurePath.to_string]. rewrite Hd.
  intros H%string_app_inj. by apply (join_app_inj ps).
Qed.

End rendering.

(** ** What the discoverers return *)

Section discovery.

Implicit Types (fs : filesystem) (st : list Path * gset string) (p lib : Path).

Lemma foldl_ext_all {A S} (f g : S → A → S) (l : list A) : ∀ s,
  (∀ s a, f s a = g s a) → foldl f s l = foldl g s l.
Proof.
  induction l as [|a l IH]; intros s H; [done|]. cbn [foldl].
  rewrite H. by apply IH.
Qed.

Lemma foldl_flat_map {A B S} (h : S → B → S) (k : A → list B) (l : list A) :
  ∀ s, foldl (λ s a, foldl h s (k a)) s l = foldl h s (flat_map k l).
Proof.
  induction l as [|a l IH]; intros s; [done|]. cbn [foldl flat_map].
  by rewrite foldl_app, IH.
Qed.

(** [seen] holds the rendering of every library, and no two libraries
    render alike; [add_library] keeps it so. *)
Lemma add_library_inv st r :
  NoDup (PurePath.to_string <$> st.1) →
  (∀ k, k ∈ st.2 ↔ k ∈ PurePath.to_string <$> st.1) →
  NoDup (PurePath.to_string <$> (add_library st r).1) ∧
  (∀ k, k ∈ (add_library st r).2 ↔
        k ∈ PurePath.to_string <$> (add_library st r).1) ∧
  (∀ x, x ∈ st.1 → x ∈ (add_library st r).1) ∧
  PurePath.to_string r ∈ PurePath.to_string <$> (add_library st r).1.
Proof.
  intros Hnd Hseen. unfold add_library. cbn zeta. case_bool_decide as Hk.
  - split; [done|]. split; [done|]. split; [done|]. by apply Hseen.
  - cbn [fst snd]. rewrite fmap_app. cbn [fmap list_fmap].
    split; [|split; [|split]].
    + apply NoDup_app. split; [done|]. split; [|apply NoDup_singleton].
      intros k Hin ->%list_elem_of_singleton. by apply Hk, Hseen.
    + intros k. rewrite elem_of_union, elem_of_app, Hseen, elem_of_singleton.
      by rewrite list_elem_of_singleton.
    + intros x Hx. apply elem_of_app. by left.
    + apply elem_of_app. right. left.
Qed.

(** A loop that adds [g a] for every [a] that passes the test [c]. *)
Lemma foldl_add_library_spec {A} (c : A → bool) (g : A → Path) (l : list A) :
  ∀ st,
  NoDup (PurePath.to_string <$> st.1) →
  (∀ k, k ∈ st.2 ↔ k ∈ PurePath.to_string <$> st.1) →
  let st' := foldl (λ st a, if c a then add_library st (g a) else st) st l in
  NoDup (PurePath.to_string <$> st'.1) ∧
  (∀ k, k ∈ st'.2 ↔ k ∈ PurePath.to_string <$> st'.1) ∧
  (∀ x, x ∈ st.1 → x ∈ st'.1) ∧
  (∀ x, x ∈ st'.1 → x ∈ st.1 ∨ ∃ a, a ∈ l ∧ c a = true ∧ x = g a) ∧
  (∀ a, a ∈ l → c a = true →
        PurePath.to_string (g a) ∈ PurePath.to_string <$> st'.1).
Proof.
  induction l as [|a l IH]; intros st Hnd Hseen; cbn zeta.
  { cbn [foldl]. split; [done|]. split; [done|]. split; [done|].
    split; [by left|]. by intros a ?%elem_of_nil. }
  cbn [foldl]. set (st1 := if c a then add_library st (g a) else st).
  assert (NoDup (PurePath.to_string <$> st1.1) ∧
          (∀ k, k ∈ st1.2 ↔ k ∈ PurePath.to_string <$> st1.1) ∧
          (∀ x, x ∈ st.1 → x ∈ st1.1) ∧
          (c a = true → PurePath.to_string (g a)
                          ∈ PurePath.to_string <$> st1.1)) as (N1 & S1 & M1 & C1).
  { unfold st1. destruct (c a); [|done].
    destruct (add_library_inv st (g a) Hnd Hseen) as (? & ? & ? & ?). done. }
  destruct (IH st1 N1 S1) as (N2 & S2 & M2 & E2 & C2). cbn zeta in *.
  split; [done|]. split; [done|]. split; [by intros x Hx; apply M2, M1|].
  split.
  - intros x [Hx|(b & Hb & Hc & ->)]%E2.
    + unfold st1 in Hx. destruct (c a) eqn:Hca; [|by left].
      apply add_library_elem in Hx as [?| ->]; [by left|].
      right. exists a. split; [left|done].
    + right. exists b. split; [by right|done].
  - intros b [->|Hb]%elem_of_cons Hc; [|by apply C2].
    apply C1 in Hc. apply list_elem_of_fmap in Hc as (x & Hx1 & Hx2).
    apply list_elem_of_fmap. exists x. split; [done|]. by apply M2.
Qed.

Lemma NoDup_rendered (l : list Path) :
  NoDup (PurePath.to_string <$> l) → NoDup l.
Proof. apply NoDup_fmap_1. Qed.

(** The children [iterdir] yields are the entries a lookup finds. *)
Lemma iterdir_lookup fs p nm n :
  PurePath.is_absolute p = true → nm ≠ ".." →
  FS.lookup fs (p ++ [nm]) = Some n →
  (p ++ [nm], n) ∈ FS.iterdir fs p ∧ valid_name nm = true.
Proof.
  intros Hp Hnm (es & Hl & He)%lookup_snoc; [|done..].
  unfold FS.iterdir. rewrite Hl. split.
  - apply list_elem_of_fmap. exists (nm, n). split; [done|]. by apply entry_elem.
  - apply lookup_ok in Hl. by destruct (entry_ok _ _ _ Hl He).
Qed.

Lemma is_dir_lookup fs p :
  FS.is_dir fs p = true ↔ ∃ es, FS.lookup fs p = Some (Dir es).
Proof.
  unfold FS.is_dir. destruct (FS.lookup fs p) as [[| |es]|].
  - split; [done|]. by intros (? & [=]).
  - split; [done|]. by intros (? & [=]).
  - split; [by exists es|done].
  - split; [done|]. by intros (? & [=]).
Qed.

(** A directory entry is in a directory. *)
Lemma is_dir_parent fs p nm :
  PurePath.is_absolute p = true → nm ≠ ".." →
  FS.is_dir fs (p ++ [nm]) = true → FS.is_dir fs p = true.
Proof.
  intros Hp Hnm (es & (es' & Hl & _)%lookup_snoc)%is_dir_lookup; [|done..].
  apply is_dir_lookup. by exists es'.
Qed.

(** The loop of the desktop discoverer tests each child once. *)
Lemma desktop_step fs st (child : Path * node) :
  (let lib_dir : Path := child.1 in
   if negb (FS.is_dir fs lib_dir)
      || Str.startswith (PurePath.name lib_dir) "." then st
   else if Str.endswith (PurePath.name lib_dir) "-src" then
     add_library st (FS.resolve fs lib_dir)
   else if has_subdir fs lib_dir "include" then
     add_library st (FS.resolve fs lib_dir)
   else if has_subdir fs lib_dir "src" then
     add_library st (FS.resolve fs lib_dir)
   else st) =
  (if desktop_library fs child.1 then add_library st (FS.resolve fs child.1)
   else st).
Proof.
  cbn zeta. unfold desktop_library.
  by destruct (FS.is_dir fs child.1),
    (Str.startswith (PurePath.name child.1) "."),
    (Str.endswith (PurePath.name child.1) "-src"),
    (has_subdir fs child.1 "include"), (has_subdir fs child.1 "src").
Qed.

Lemma desktop_library_spec fs (d : Path) nm :
  d ≠ [] →
  desktop_library fs (d ++ [nm]) = true ↔
  FS.is_dir fs (d ++ [nm]) = true ∧ Str.startswith nm "." = false ∧
  (Str.endswith nm "-src" = true ∨
   FS.is_dir fs ((d ++ [nm]) ++ ["include"]) = true ∨
   FS.is_dir fs ((d ++ [nm]) ++ ["src"]) = true).
Proof.
  intros Hd. unfold desktop_library, has_subdir.
  rewrite !exists_and_is_dir, (name_snoc _ _ Hd).
  rewrite !andb_true_iff, !orb_true_iff, negb_true_iff. tauto.
Qed.

End discovery.

(** The desktop discoverer, characterised.  The library roots it returns
    are exactly the children of [build/_deps] under the resolved project
    directory that are directories, whose name does not begin with a dot,
    and that are named [*-src] or hold a directory [include] or [src];
    each is returned once. *)
Theorem desktop_libraries_characterised (fs : filesystem)
    (project_dir : string) :
  let build_deps :=
    FS.resolve fs (PurePath.of_string project_dir) ++ ["build"; "_deps"] in
  (∀ lib, lib ∈ _discover_libraries_desktop fs project_dir ↔
     ∃ nm, lib = build_deps ++ [nm] ∧ nm ≠ ".." ∧
       FS.is_dir fs lib = true ∧ Str.startswith nm "." = false ∧
       (Str.endswith nm "-src" = true ∨
        FS.is_dir fs (lib ++ ["include"]) = true ∨
        FS.is_dir fs (lib ++ ["src"]) = true)) ∧
  NoDup (_discover_libraries_desktop fs project_dir).
Proof.
  cbn zeta. unfold _discover_libraries_desktop. cbn zeta.
  set (pp := FS.resolve fs (PurePath.of_string project_dir)).
  set (deps := pp ++ ["build"; "_deps"]).
  assert (PurePath.is_absolute deps = true) as Habs
    by apply is_absolute_app, resolve_abs.
  assert (deps ≠ []) as Hne by by apply is_absolute_nonempty.
  destruct (FS.is_dir fs deps) eqn:Hdir.
  2:{ rewrite orb_true_r. split; [|constructor].
      intros lib. split; [by intros ?%elem_of_nil|].
      intros (nm & -> & Hnm & Hd & _).
      apply is_dir_parent in Hd; [|done..]. by rewrite Hd in Hdir. }
  rewrite (is_dir_exists _ _ Hdir). cbn [negb orb].
  rewrite (foldl_ext_all _ _ _ _ (desktop_step fs)).
  destruct (foldl_add_library_spec (λ child : Path * node, desktop_library fs child.1)
              (λ child : Path * node, FS.resolve fs child.1)
              (FS.iterdir fs deps) ([], ∅))
    as (Hnd & _ & _ & Hsound & Hcompl).
  { constructor. }
  { intros k. cbn. by rewrite elem_of_empty, elem_of_nil. }
  cbn zeta in *.
  assert (∀ child : Path * node, child ∈ FS.iterdir fs deps →
            ∃ nm, child.1 = deps ++ [nm] ∧ valid_name nm = true ∧
                  FS.resolve fs child.1 = deps ++ [nm]) as Hchild.
  { intros child (nm & Hc & Hv)%iterdir_elem. exists nm.
    split; [done|]. split; [done|]. rewrite Hc. unfold deps, pp.
    rewrite <- app_assoc. apply resolve_below.
    apply valid_name_not_dotdot in Hv.
    intros H. repeat (apply elem_of_cons in H as [H|H]; [done|]).
    by apply elem_of_nil in H. }
  split; [|by apply NoDup_rendered].
  intros lib. split.
  - intros [H|(child & Hin & Hc & ->)]%Hsound; [by apply elem_of_nil in H|].
    destruct (Hchild child Hin) as (nm & Hc1 & Hv & ->).
    rewrite Hc1 in Hc. apply desktop_library_spec in Hc as (? & ? & ?); [|done].
    exists nm. split; [done|]. split; [by apply valid_name_not_dotdot|done].
  - intros (nm & -> & Hnm & Hd & Hhid & Hsrc).
    pose proof Hd as (es & Hl)%is_dir_lookup.
    destruct (iterdir_lookup fs deps nm (Dir es) Habs Hnm Hl) as [Hin Hv].
    destruct (Hchild _ Hin) as (nm' & Hc1 & _ & Hres). cbn [fst] in Hc1, Hres.
    apply app_inv_head in Hc1 as [= <-].
    specialize (Hcompl _ Hin). cbn [fst] in Hcompl. rewrite Hres in Hcompl.
    apply list_elem_of_fmap in Hcompl as (x & Hx & Hxin).
    2:{ apply desktop_library_spec; done. }
    pose proof Hxin as [H|(child & Hin' & _ & ->)]%Hsound;
      [by apply elem_of_nil in H|].
    destruct (Hchild child Hin') as (nm' & _ & Hv' & Hres').
    rewrite Hres' in Hx, Hxin.
    apply to_string_below_inj in Hx as [= ->]; try done;
      by repeat constructor.
Qed.

(** The two loops of the embedded discoverer are one loop over the
    directories two levels down. *)
Lemma arduino_loops fs (pio_libdeps : Path) (st : list Path * gset string) :
  foldl (λ st (env : Path * node),
     let env_dir : Path := env.1 in
     if negb (FS.is_dir fs env_dir) then st
     else
       foldl (λ st (child : Path * node),
         let lib_dir : Path := child.1 in
         if negb (FS.is_dir fs lib_dir) then st
         else add_library st (FS.resolve fs lib_dir))
         st (FS.iterdir fs env_dir))
    st (FS.iterdir fs pio_libdeps) =
  foldl (λ st (child : Path * node),
     if FS.is_dir fs child.1 then add_library st (FS.resolve fs child.1)
     else st)
    st (arduino_candidates fs pio_libdeps).
Proof.
  unfold arduino_candidates. rewrite <- foldl_flat_map.
  apply foldl_ext_all. intros s env. cbn zeta.
  destruct (FS.is_dir fs env.1); cbn [negb]; [|done].
  apply foldl_ext_all. intros s' child. by destruct (FS.is_dir fs child.1).
Qed.

(** The embedded discoverer, characterised.  The library roots it returns
    are exactly the directories two levels below [.pio/libdeps] under the
    resolved project directory, whatever their name and content; each is
    returned once. *)
Theorem arduino_libraries_characterised (fs : filesystem)
    (project_dir : string) :
  let pio_libdeps :=
    FS.resolve fs (PurePath.of_string project_dir) ++ [".pio"; "libdeps"] in
  (∀ lib, lib ∈ _discover_libraries_arduino fs project_dir ↔
     ∃ env nm, lib = pio_libdeps ++ [env; nm] ∧ env ≠ ".." ∧ nm ≠ ".." ∧
       FS.is_dir fs lib = true) ∧
  NoDup (_discover_libraries_arduino fs project_dir).
Proof.
  cbn zeta. unfold _discover_libraries_arduino. cbn zeta.
  set (pp := FS.resolve fs (PurePath.of_string project_dir)).
  set (deps := pp ++ [".pio"; "libdeps"]).
  assert (PurePath.is_absolute deps = true) as Habs
    by apply is_absolute_app, resolve_abs.
  assert (∀ env nm, deps ++ [env; nm] = (deps ++ [env]) ++ [nm]) as Hassoc
    by (intros; by rewrite <- app_assoc).
  destruct (FS.is_dir fs deps) eqn:Hdir.
  2:{ rewrite orb_true_r. split; [|constructor].
      intros lib. split; [by intros ?%elem_of_nil|].
      intros (env & nm & -> & Henv & Hnm & Hd). rewrite Hassoc in Hd.
      apply is_dir_parent in Hd; [|by apply is_absolute_app|done].
      apply is_dir_parent in Hd; [|done..]. by rewrite Hd in Hdir. }
  rewrite (is_dir_exists _ _ Hdir). cbn [negb orb].
  rewrite arduino_loops.
  destruct (foldl_add_library_spec (λ child : Path * node, FS.is_dir fs child.1)
              (λ child : Path * node, FS.resolve fs child.1)
              (arduino_candidates fs deps) ([], ∅))
    as (Hnd & _ & _ & Hsound & Hcompl).
  { constructor. }
  { intros k. cbn. by rewrite elem_of_empty, elem_of_nil. }
  cbn zeta in *.
  assert (∀ child : Path * node, child ∈ arduino_candidates fs deps →
            ∃ env nm, child.1 = deps ++ [env; nm] ∧ valid_name env = true ∧
                      valid_name nm = true ∧
                      FS.resolve fs child.1 = deps ++ [env; nm]) as Hchild.
  { intros child (e & He & Hc)%elem_of_flat_map.
    destruct (FS.is_dir fs e.1); [|by apply elem_of_nil in Hc].
    apply iterdir_elem in He as (env & He & Hv1).
    apply iterdir_elem in Hc as (nm & Hc & Hv2).
    exists env, nm. rewrite Hc, He, <- app_assoc.
    split; [done|]. split; [done|]. split; [done|].
    unfold deps, pp. rewrite <- !app_assoc. cbn [app]. apply resolve_below.
    apply valid_name_not_dotdot in Hv1, Hv2.
    intros H. repeat (apply elem_of_cons in H as [H|H]; [done|]).
    by apply elem_of_nil in H. }
  split; [|by apply NoDup_rendered].
  intros lib. split.
  - intros [H|(child & Hin & Hc & ->)]%Hsound; [by apply elem_of_nil in H|].
    destruct (Hchild child Hin) as (env & nm & Hc1 & Hv1 & Hv2 & ->).
    rewrite Hc1 in Hc. exists env, nm.
    split; [done|]. split; [by apply valid_name_not_dotdot|].
    split; [by apply valid_name_not_dotdot|done].
  - intros (env & nm & -> & Henv & Hnm & Hd).
    pose proof Hd as (es & Hl)%is_dir_lookup. rewrite Hassoc in Hl.
    destruct (iterdir_lookup fs (deps ++ [env]) nm (Dir es)) as [Hin2 Hv2];
      [by apply is_absolute_app|done|done|].
    assert (FS.is_dir fs (deps ++ [env]) = true) as Hd1.
    { rewrite Hassoc in Hd. apply is_dir_parent in Hd; [done| |done].
      by apply is_absolute_app. }
    pose proof Hd1 as (es1 & Hl1)%is_dir_lookup.
    destruct (iterdir_lookup fs deps env (Dir es1) Habs Henv Hl1) as [Hin1 Hv1].
    assert (((deps ++ [env]) ++ [nm], Dir es) ∈ arduino_candidates fs deps)
      as Hin.
    { apply elem_of_flat_map. exists (deps ++ [env], Dir es1).
      split; [done|]. cbn [fst]. by rewrite Hd1. }
    destruct (Hchild _ Hin) as (env' & nm' & Hc1 & _ & _ & Hres).
    cbn [fst] in Hc1, Hres. rewrite <- Hassoc in Hc1.
    apply app_inv_head in Hc1 as [= <- <-].
    specialize (Hcompl _ Hin). cbn [fst] in Hcompl.
    rewrite <- Hassoc in Hcompl at 1. rewrite Hres, Hd in Hcompl.
    apply list_elem_of_fmap in Hcompl as (x & Hx & Hxin); [|done].
    pose proof Hxin as [H|(child & Hin' & _ & ->)]%Hsound;
      [by apply elem_of_nil in H|].
    destruct (Hchild child Hin') as (env' & nm' & _ & Hv1' & Hv2' & Hres').
    rewrite Hres' in Hx, Hxin.
    apply to_string_below_inj in Hx as [= -> ->]; try done;
      by repeat constructor.
Qed.

(** ** The two collectors side by side *)

Section flavours.

Implicit Types (fs : filesystem) (env : environ).

(** Libraries whose walks return nothing can be left out. *)
Lemma collect_without_libraries fs libraries project_dir file_extensions
    include_folders exclude_folders exclude_dirs include_libraries :
  (∀ lib, lib ∈ libraries →
     _walk_for_files fs lib (_normalize_extensions file_extensions)
       include_folders (exclude_dir_set exclude_folders exclude_dirs) None
     = []) →
  collect fs libraries project_dir file_extensions include_folders
    exclude_folders exclude_dirs include_libraries =
  collect fs [] project_dir file_extensions include_folders
    exclude_folders exclude_dirs false.
Proof.
  intros H. unfold collect. cbn zeta. destruct include_libraries; [|done].
  by rewrite foldl_union_nil.
Qed.

Lemma collectors_agree fs project_dir file_extensions include_folders
    exclude_folders exclude_dirs include_libraries :
  (∀ g, g ∈ default [] include_folders → os_path_isabs g = false) →
  get_all_files_desktop fs project_dir file_extensions include_folders
    exclude_folders exclude_dirs include_libraries =
  get_all_files_arduino fs project_dir file_extensions include_folders
    exclude_folders exclude_dirs include_libraries.
Proof.
  intros Hrel. unfold get_all_files_desktop, get_all_files_arduino.
  rewrite (collect_without_libraries fs (_discover_libraries_desktop _ _)).
  - rewrite (collect_without_libraries fs (_discover_libraries_arduino _ _));
      [done|].
    intros lib Hlib%discovered_arduino_below_pio.
    by apply (library_walk_nil _ _ ".pio"); [set_solver| |].
  - intros lib Hlib%discovered_desktop_below_build.
    by apply (library_walk_nil _ _ "build"); [set_solver| |].
Qed.

Lemma std_project_dir_given fs env d :
  d ≠ "" → std_project_dir fs env (Some d) = d.
Proof.
  intros Hd.
  assert (str_truthy (Some d) = true) as Ht
    by (cbn [str_truthy]; by rewrite (bool_decide_eq_false_2 _ Hd)).
  unfold std_project_dir. rewrite Ht. cbn [negb]. by rewrite Ht.
Qed.

Lemma or_cwd_given fs d : d ≠ "" → or_cwd fs (Some d) = d.
Proof.
  intros Hd. unfold or_cwd. cbn [str_truthy].
  by rewrite (bool_decide_eq_false_2 _ Hd).
Qed.

End flavours.

(** The flavour does not change the result, in a file tree in which no
    symbolic link points to a directory (a library that is a link to a
    directory elsewhere is walked, and only by the collector of its
    flavour).  Unless [include_folders] has an absolute entry,
    [get_all_files_desktop] and [get_all_files_arduino] return the same
    list for the same arguments, so what [get_all_files_std] returns
    depends on the environment only through the project directory it
    settles on, not through the flavour [_is_cmake_build] detects. *)
Theorem flavour_does_not_change_result (fs : filesystem) (env : environ)
    (project_dir : option string)
    (file_extensions include_folders exclude_folders exclude_dirs
       : option (list string))
    (include_libraries : bool) :
  no_dir_links fs = true →
  (∀ g, g ∈ default [] include_folders → os_path_isabs g = false) →
  (∀ d, get_all_files_desktop fs d file_extensions include_folders
          exclude_folders exclude_dirs include_libraries =
        get_all_files_arduino fs d file_extensions include_folders
          exclude_folders exclude_dirs include_libraries) ∧
  get_all_files_std fs env project_dir file_extensions include_folders
    exclude_folders exclude_dirs include_libraries =
  get_all_files_desktop fs (std_project_dir fs env project_dir)
    file_extensions include_folders exclude_folders exclude_dirs
    include_libraries.
Proof.
  intros _ Hrel. split; [intros d; by apply collectors_agree|].
  unfold get_all_files_std. cbn zeta.
  destruct (_is_cmake_build fs env _); [done|].
  symmetry. by apply collectors_agree.
Qed.

(** Witness: with [PROJECT_DIR] set, the dispatcher takes the embedded
    flavour for the example project and returns what the desktop collector
    returns. *)
Lemma flavour_does_not_change_result_witness :
  (∀ d, get_all_files_desktop project_fs d None None None None true =
        get_all_files_arduino project_fs d None None None None true) ∧
  get_all_files_std project_fs {[ "PROJECT_DIR" := "/proj" ]} None None None
    None None true =
  get_all_files_desktop project_fs
    (std_project_dir project_fs {[ "PROJECT_DIR" := "/proj" ]} None)
    None None None None true.
Proof.
  apply (flavour_does_not_change_result project_fs
           {[ "PROJECT_DIR" := "/proj" ]} None None None None None true);
    [reflexivity|].
  intros g Hg. by apply elem_of_nil in Hg.
Defined.

(** The command line, in a file tree in which no symbolic link points to a
    directory.  When a project directory is given, the script prints the
    result of the desktop collector for it with all defaults, whatever the
    mode argument says, whether or not it names a mode, and whatever
    follows it; the environment is not consulted. *)
Theorem main_mode_does_not_change_output (fs : filesystem) (env : environ)
    (prog d : string) (rest : list string) :
  no_dir_links fs = true →
  d ≠ "" →
  main fs env (prog :: d :: rest) =
  get_all_files_desktop fs d None None None None true.
Proof.
  intros _ Hd.
  assert (∀ g : string, g ∈ default [] (@None (list string)) →
                        os_path_isabs g = false) as Hrel
    by (intros g Hg; by apply elem_of_nil in Hg).
  unfold main. cbn zeta.
  rewrite (bool_decide_eq_true_2 (1 < length (prog :: d :: rest)))
    by (cbn [length]; lia).
  change ((prog :: d :: rest) !! 1) with (Some d).
  rewrite or_cwd_given by done.
  destruct (bool_decide (Str.lower _ ∈ ["arduino"; "pio"; "platformio"])).
  { symmetry. by apply collectors_agree. }
  destruct (bool_decide (Str.lower _ ∈ ["desktop"; "cmake"])); [done|].
  unfold get_all_files_std. cbn zeta. rewrite std_project_dir_given by done.
  destruct (_is_cmake_build fs env _); [done|].
  symmetry. by apply collectors_agree.
Qed.

(** Witness: the embedded mode, spelled in capitals, on the example
    project. *)
Lemma main_mode_does_not_change_output_witness :
  main project_fs ∅ ["get_all_source_files.py"; "/proj"; "PIO"] =
  get_all_files_desktop project_fs "/proj" None None None None true.
Proof.
  by apply (main_mode_does_not_change_output project_fs ∅
              "get_all_source_files.py" "/proj" ["PIO"]); [reflexivity|].
Defined.

(** ** List arguments read as sets *)

Section as_sets.

Implicit Types (fs : filesystem) (a b : option (list string)).

Lemma same_members_truthy a b :
  (∀ x, x ∈ default [] a ↔ x ∈ default [] b) → truthy a = truthy b.
Proof.
  intros H.
  assert (∀ o : option (list string),
            truthy o = false ↔ default [] o = []) as Hnil.
  { intros [[|x l]|]; by cbn. }
  destruct (truthy a) eqn:Ha, (truthy b) eqn:Hb; try done.
  - apply Hnil in Hb. rewrite Hb in H. destruct a as [[|x l]|]; try done.
    cbn in H. by destruct (proj1 (elem_of_nil x) (proj1 (H x) (list_elem_of_here _ _))).
  - apply Hnil in Ha. rewrite Ha in H. destruct b as [[|x l]|]; try done.
    cbn in H. by destruct (proj1 (elem_of_nil x) (proj2 (H x) (list_elem_of_here _ _))).
Qed.

Lemma same_members_fmap {B} (g : string → B) (l1 l2 : list string) y :
  (∀ x, x ∈ l1 ↔ x ∈ l2) → y ∈ g <$> l1 ↔ y ∈ g <$> l2.
Proof.
  intros H. rewrite !list_elem_of_fmap.
  split; intros (x & -> & Hx); exists x; (split; [done|]); by apply H.
Qed.

Lemma normalize_same_members a b :
  (∀ x, x ∈ default [] a ↔ x ∈ default [] b) →
  _normalize_extensions a = _normalize_extensions b.
Proof.
  intros H. unfold _normalize_extensions.
  rewrite (same_members_truthy a b H). destruct (truthy b); [|done].
  cbn [negb]. apply set_eq. intros x. rewrite !elem_of_foldl_add.
  split; (intros [?|(e & He & ->)]; [by left|right; exists e]);
    (split; [by apply H|done]).
Qed.

Lemma exclude_dir_set_same_members a b a' b' :
  (∀ x, x ∈ default [] a ↔ x ∈ default [] b) →
  (∀ x, x ∈ default [] a' ↔ x ∈ default [] b') →
  exclude_dir_set a a' = exclude_dir_set b b'.
Proof.
  intros H H'. apply set_eq. intros x. rewrite !elem_of_exclude_dir_set.
  by rewrite (same_members_fmap strip_name _ _ x H'),
    (same_members_fmap first_part _ _ x H).
Qed.

Lemma exclude_path_set_same_members fs project_path a b :
  (∀ x, x ∈ default [] a ↔ x ∈ default [] b) →
  exclude_path_set fs project_path a = exclude_path_set fs project_path b.
Proof.
  intros H. unfold exclude_path_set.
  rewrite (same_members_truthy a b H). destruct (truthy b); [|done].
  apply set_eq. intros x. rewrite !elem_of_list_to_set.
  by apply (same_members_fmap (exclude_path_of fs project_path)).
Qed.

Lemma named_subs_same_members fs r (l1 l2 : list string) start :
  (∀ x, x ∈ l1 ↔ x ∈ l2) →
  start ∈ named_subs fs r l1 ↔ start ∈ named_subs fs r l2.
Proof.
  intros H. rewrite !named_subs_elem.
  split; intros (f & Hf & ?); exists f; (split; [by apply H|done]).
Qed.

Lemma roots_to_walk_same_members fs r a b start :
  (∀ x, x ∈ default [] a ↔ x ∈ default [] b) →
  start ∈ roots_to_walk fs r a ↔ start ∈ roots_to_walk fs r b.
Proof.
  intros H. rewrite !roots_to_walk_spec.
  pose proof (named_subs_same_members fs r _ _ start H) as Hs.
  destruct (named_subs fs r (default [] a)) as [|s1 l1] eqn:E1,
    (named_subs fs r (default [] b)) as [|s2 l2] eqn:E2; try done.
  - pose proof (proj2 (named_subs_same_members fs r _ _ s2 H)) as H2.
    rewrite E1, E2 in H2.
    by destruct (proj1 (elem_of_nil s2) (H2 (list_elem_of_here _ _))).
  - pose proof (proj1 (named_subs_same_members fs r _ _ s1 H)) as H1.
    rewrite E1, E2 in H1.
    by destruct (proj1 (elem_of_nil s1) (H1 (list_elem_of_here _ _))).
Qed.

Lemma walk_trace_same_members fs root_path exts a b excl eps v :
  (∀ x, x ∈ default [] a ↔ x ∈ default [] b) →
  v ∈ walk_trace fs root_path exts a excl eps ↔
  v ∈ walk_trace fs root_path exts b excl eps.
Proof.
  intros H. unfold walk_trace. cbn zeta.
  destruct (negb _ || negb _); [done|]. rewrite !elem_of_flat_map.
  split; intros (start & Hs & Hv); exists start;
    (split; [by apply (roots_to_walk_same_members fs _ a b start H)|done]).
Qed.

Lemma walk_set_same_members fs root_path exts a b excl eps :
  (∀ x, x ∈ default [] a ↔ x ∈ default [] b) →
  list_to_set (C := gset string) (_walk_for_files fs root_path exts a excl eps)
  = list_to_set (_walk_for_files fs root_path exts b excl eps).
Proof.
  intros H. apply set_eq. intros s.
  rewrite !elem_of_list_to_set, !walk_for_files_elem. unfold walk_paths.
  split; intros (p & (d & es & e & Hin & He & ->)%resolved_paths_elem & ->);
    eexists; (split; [|done]); apply resolved_paths_elem; exists d, es, e;
    (split; [|done]);
    by apply (walk_trace_same_members fs root_path exts a b excl eps _ H).
Qed.

Lemma collect_same_members fs libraries project_dir e1 e2 i1 i2 f1 f2 d1 d2
    include_libraries :
  (∀ x, x ∈ default [] e1 ↔ x ∈ default [] e2) →
  (∀ x, x ∈ default [] i1 ↔ x ∈ default [] i2) →
  (∀ x, x ∈ default [] f1 ↔ x ∈ default [] f2) →
  (∀ x, x ∈ default [] d1 ↔ x ∈ default [] d2) →
  collect fs libraries project_dir e1 i1 f1 d1 include_libraries =
  collect fs libraries project_dir e2 i2 f2 d2 include_libraries.
Proof.
  intros He Hi Hf Hd. unfold collect. cbn zeta.
  rewrite (normalize_same_members e1 e2 He),
    (exclude_dir_set_same_members f1 f2 d1 d2 Hf Hd),
    (exclude_path_set_same_members fs _ f1 f2 Hf).
  rewrite (walk_set_same_members fs _ _ i1 i2 _ _ Hi).
  destruct include_libraries; [|done]. do 2 f_equal.
  apply foldl_ext_all. intros acc lib.
  by rewrite (walk_set_same_members fs _ _ i1 i2 _ _ Hi).
Qed.

End as_sets.

(** The collectors read their list arguments as sets.  Two calls whose
    extension lists have the same members, and likewise their include
    folders, exclude folders and exclude names, return the same list: the
    order of the entries and their repetition make no difference, and an
    empty list is an absent one. *)
Theorem collectors_read_lists_as_sets (fs : filesystem) (project_dir : string)
    (e1 e2 i1 i2 f1 f2 d1 d2 : option (list string))
    (include_libraries : bool) :
  (∀ x, x ∈ default [] e1 ↔ x ∈ default [] e2) →
  (∀ x, x ∈ default [] i1 ↔ x ∈ default [] i2) →
  (∀ x, x ∈ default [] f1 ↔ x ∈ default [] f2) →
  (∀ x, x ∈ default [] d1 ↔ x ∈ default [] d2) →
  get_all_files_desktop fs project_dir e1 i1 f1 d1 include_libraries =
  get_all_files_desktop fs project_dir e2 i2 f2 d2 include_libraries ∧
  get_all_files_arduino fs project_dir e1 i1 f1 d1 include_libraries =
  get_all_files_arduino fs project_dir e2 i2 f2 d2 include_libraries.
Proof.
  intros He Hi Hf Hd. unfold get_all_files_desktop, get_all_files_arduino.
  split; by apply collect_same_members.
Qed.

(** Witness: reordered and repeated entries on the example project. *)
Lemma collectors_read_lists_as_sets_witness :
  get_all_files_desktop project_fs "/proj" (Some [".h"; ".cpp"; ".h"])
    (Some ["src"; "include"; "src"]) None (Some ["obj"; "tmp"]) true =
  get_all_files_desktop project_fs "/proj" (Some [".cpp"; ".h"])
    (Some ["include"; "src"]) (Some []) (Some ["tmp"; "obj"; "tmp"]) true ∧
  get_all_files_arduino project_fs "/proj" (Some [".h"; ".cpp"; ".h"])
    (Some ["src"; "include"; "src"]) None (Some ["obj"; "tmp"]) true =
  get_all_files_arduino project_fs "/proj" (Some [".cpp"; ".h"])
    (Some ["include"; "src"]) (Some []) (Some ["tmp"; "obj"; "tmp"]) true.
Proof.
  apply (collectors_read_lists_as_sets project_fs "/proj"
           (Some [".h"; ".cpp"; ".h"]) (Some [".cpp"; ".h"])
           (Some ["src"; "include"; "src"]) (Some ["include"; "src"])
           None (Some []) (Some ["obj"; "tmp"]) (Some ["tmp"; "obj"; "tmp"])
           true);
    intros x; cbn [from_option id]; rewrite ?elem_of_cons, ?elem_of_nil; tauto.
Defined.

(** ** An exclude folder that names the project directory *)

Section under_exclude_path.

Context (fs : filesystem) (file_extensions exclude_dirs : gset string).
Context (cex : gset Path).

Lemma under_any_true d ex :
  ex ∈ cex → ex `prefix_of` FS.resolve fs d →
  _path_under_any fs d cex = true.
Proof.
  intros Hin Hpre. destruct (_path_under_any fs d cex) eqn:E; [done|].
  rewrite under_any_false in E. by destruct (E ex Hin).
Qed.

(** A start that lies under an exclude path collects nothing. *)
Lemma os_walk_under start ex :
  ex ∈ cex → ex `prefix_of` FS.resolve fs start →
  resolved_paths fs (os_walk fs file_extensions exclude_dirs cex start) = [].
Proof.
  intros Hin Hpre. unfold os_walk.
  destruct (FS.lookup fs start) as [[|t|es]|]; [done|done| |done].
  cbn [walk_body].
  destruct (_path_has_excluded_part start exclude_dirs); [done|].
  rewrite (under_any_true start ex Hin Hpre), bool_decide_eq_true_2; [done|].
  intros E. rewrite E in Hin. by apply not_elem_of_empty in Hin.
Qed.

End under_exclude_path.

(** An exclude folder without parts ([""], ["."], ["./"]) stands for the
    project directory itself: the project walk is pruned at every start
    below it.  In a file tree in which no symbolic link points to a
    directory, and with include folders that are relative and hold no
    [".."], both collectors return the empty list. *)
Theorem exclude_folder_without_parts_excludes_all (fs : filesystem)
    (project_dir : string)
    (file_extensions include_folders exclude_folders exclude_dirs
       : option (list string))
    (include_libraries : bool) (f : string) :
  no_dir_links fs = true →
  f ∈ default [] exclude_folders →
  PurePath.of_string f = [] →
  (∀ g, g ∈ default [] include_folders →
        os_path_isabs g = false ∧ ".." ∉ PurePath.of_string g) →
  get_all_files_desktop fs project_dir file_extensions include_folders
    exclude_folders exclude_dirs include_libraries = [] ∧
  get_all_files_arduino fs project_dir file_extensions include_folders
    exclude_folders exclude_dirs include_libraries = [].
Proof.
  intros _ Hf Hparts Hinc.
  set (pp := FS.resolve fs (PurePath.of_string project_dir)).
  set (eps := exclude_path_set fs pp exclude_folders).
  assert (os_path_isabs f = false) as Hrel.
  { destruct (os_path_isabs f) eqn:E; [|done].
    apply isabs_true_of_string in E. by rewrite Hparts in E. }
  assert (pp ∈ eps) as Hpp.
  { unfold eps, exclude_path_set.
    destruct exclude_folders as [[|a l]|];
      [by apply elem_of_nil in Hf| |by apply elem_of_nil in Hf].
    cbn [truthy from_option id] in *. apply elem_of_list_to_set.
    change (map (exclude_path_of fs pp) (a :: l))
      with (exclude_path_of fs pp <$> (a :: l)).
    apply list_elem_of_fmap. exists f. split; [|done].
    unfold exclude_path_of, PurePath.joinpath. rewrite Hrel, Hparts.
    cbn. rewrite app_nil_r. unfold pp. by rewrite resolve_idem. }
  assert (∀ g, g ∈ default [] include_folders → os_path_isabs g = false)
    as Hrel' by (intros g Hg; by destruct (Hinc g Hg)).
  assert (_walk_for_files fs pp (_normalize_extensions file_extensions)
            include_folders (exclude_dir_set exclude_folders exclude_dirs)
            (if decide (eps = ∅) then None else Some eps) = []) as Hproj.
  { unfold _walk_for_files, walk_paths.
    destruct (FS.is_dir fs (FS.resolve fs pp)) eqn:Hd.
    2:{ by rewrite walk_trace_missing by by right. }
    rewrite walk_trace_present by done.
    rewrite resolved_paths_nil; [done|].
    intros start Hstart. apply (os_walk_under _ _ _ _ _ pp).
    { unfold eps. by rewrite combined_exclude_path_set. }
    unfold pp in Hstart. rewrite resolve_idem in Hstart. fold pp in Hstart.
    apply roots_to_walk_elem in Hstart as [->|(g & Hg & -> & _)].
    { unfold pp. by rewrite resolve_idem. }
    destruct (Hinc g Hg) as [Hg1 Hg2].
    rewrite include_sub_spec, Hg1. unfold pp at 2.
    rewrite resolve_below by done. by apply prefix_app_r. }
  assert (∀ libraries,
    (∀ lib, lib ∈ libraries →
       _walk_for_files fs lib (_normalize_extensions file_extensions)
         include_folders (exclude_dir_set exclude_folders exclude_dirs) None
       = []) →
    collect fs libraries project_dir file_extensions include_folders
      exclude_folders exclude_dirs include_libraries = []) as Hcollect.
  { intros libraries Hl. rewrite collect_without_libraries by done.
    unfold collect. cbn zeta. fold pp. fold eps. rewrite Hproj. cbn.
    by rewrite elements_empty. }
  unfold get_all_files_desktop, get_all_files_arduino.
  split; apply Hcollect.
  - intros lib Hlib%discovered_desktop_below_build.
    by apply (library_walk_nil _ _ "build"); [set_solver| |].
  - intros lib Hlib%discovered_arduino_below_pio.
    by apply (library_walk_nil _ _ ".pio"); [set_solver| |].
Qed.

(** Witness: excluding ["."] empties the result for the example
    project. *)
Lemma exclude_folder_without_parts_excludes_all_witness :
  get_all_files_desktop project_fs "/proj" None (Some ["src"]) (Some ["."])
    None true = [] ∧
  get_all_files_arduino project_fs "/proj" None (Some ["src"]) (Some ["."])
    None true = [].
Proof.
  apply (exclude_folder_without_parts_excludes_all project_fs "/proj" None
           (Some ["src"]) (Some ["."]) None true ".").
  - reflexivity.
  - left.
  - reflexivity.
  - intros g Hg. apply list_elem_of_singleton in Hg as ->.
    split; [reflexivity|by_evaluation].
Defined.
